(** * Image-edit adapter ([services/geminiService.ts]) and its shell

    A shallow embedding of [editImageWithGemini] and of the pieces of the
    JavaScript runtime and of the [@google/genai] interface it touches, of
    the state and the handlers of the component that calls it ([App.tsx])
    and of the button it renders ([components/Button.tsx]), followed by
    their properties.

    Conventions.
    - A JavaScript string is a [string]; the characters are the code units
      0..255.  The only character the adapter inspects is the comma, and the
      only characters [trim] inspects are white space.
    - An optional property ([x?: T]) is an [option]; [None] is [undefined].
    - The adapter is an [async] function that performs one kind of remote call
      and writes to the console.  It is embedded as a term of [Prog], a small
      command tree: the remote call and the console are nodes, [throw] and
      [return] are leaves.  [run] executes a tree against a behaviour of the
      remote service and yields the events performed and the way the promise
      settles.
    - The values of the [@google/genai] interface follow its declarations:
      every property of a response, candidate, content, part and blob is
      optional.  The constructor of the client records the key and does
      nothing else.  A value thrown by the remote call is an object with an
      optional [message] string.
    - The component is its five state cells; a handler is a function on
      them, and a handler that awaits the adapter is split at the [await].
      A state setter given a function is applied to the state of the moment
      it runs at.  The DOM, the file reader and the arithmetic on the zoom
      are not embedded. *)

From Stdlib Require Import String Ascii List Bool Lia PrimFloat.
Import ListNotations.

Local Open Scope string_scope.
Local Open Scope list_scope.

(** ** JavaScript strings *)

Module Js.

(** Line feed, the line terminator of the source file. *)
Definition LF : string := String "010"%char EmptyString.

(** [s.split(sep)] for a separator of one character.  The result is never
    empty: a string without the separator is returned whole, as the only
    segment. *)
Fixpoint split (sep : ascii) (s : string) : list string :=
  match s with
  | EmptyString => [EmptyString]
  | String c rest =>
      if Ascii.eqb c sep then EmptyString :: split sep rest
      else match split sep rest with
           | seg :: segs => String c seg :: segs
           | [] => [String c EmptyString]
           end
  end.

(** White space and line terminators, as [String.prototype.trim] sees them,
    among the code units 0..255: TAB, LF, VT, FF, CR, SP, NBSP. *)
Definition is_white_space (c : ascii) : bool :=
  match nat_of_ascii c with
  | 9 | 10 | 11 | 12 | 13 | 32 | 160 => true
  | _ => false
  end.

Fixpoint trimStart (s : string) : string :=
  match s with
  | EmptyString => EmptyString
  | String c rest => if is_white_space c then trimStart rest else s
  end.

Fixpoint trimEnd (s : string) : string :=
  match s with
  | EmptyString => EmptyString
  | String c rest =>
      match trimEnd rest with
      | EmptyString => if is_white_space c then EmptyString
                       else String c EmptyString
      | kept => String c kept
      end
  end.

Definition trim (s : string) : string := trimEnd (trimStart s).

(** [`${v}`]: the string itself, and ["undefined"] for [undefined]. *)
Definition interpolate (v : option string) : string :=
  match v with
  | Some s => s
  | None => "undefined"
  end.

(** [v || d] where [v] is a string or [undefined]: the empty string is falsy. *)
Definition or_else (v : option string) (d : string) : string :=
  match v with
  | Some EmptyString => d
  | Some s => s
  | None => d
  end.

(** A thrown value, as far as the adapter looks at it: its [message]. *)
Record Error : Type := { message : option string }.

(** [new Error(msg)]. *)
Definition new_Error (msg : string) : Error := {| message := Some msg |}.

(** Optional chaining: [a?.f]. *)
Definition chain {A B : Type} (a : option A) (f : A -> option B) : option B :=
  match a with
  | Some x => f x
  | None => None
  end.

End Js.

Notation "a ?> f" := (Js.chain a f) (at level 55, left associativity).

(** ** The part of [@google/genai] the adapter uses *)

Module GenAI.

Record Blob : Type := { data : option string; mimeType : option string }.

Record Part : Type := { inlineData : option Blob; text : option string }.

Record Content : Type := { parts : option (list Part); role : option string }.

Record Candidate : Type :=
  { content : option Content; finishReason : option string }.

Record GenerateContentResponse : Type :=
  { candidates : option (list Candidate); modelVersion : option string }.

Record GenerateContentParameters : Type :=
  { model : string; contents : Content }.

(** The client object: [new GoogleGenAI({ apiKey })]. *)
Record GoogleGenAI : Type := { apiKey : string }.

(** How the promise of [ai.models.generateContent] settles. *)
Inductive Outcome : Type :=
| Resolves (response : GenerateContentResponse)
| Rejects (error : Js.Error).

End GenAI.

Import GenAI.

(** ** [types.ts] *)

Record EditRequest : Type :=
  { image : string; mimeType : string; instruction : string }.

(** [process.env], as far as the adapter reads it. *)
Record ProcessEnv : Type := { API_KEY : option string }.

(** ** Programs *)

Inductive Prog (A : Type) : Type :=
| Ret (a : A)
| Throw (e : Js.Error)
| AwaitGenerateContent (ai : GoogleGenAI) (params : GenerateContentParameters)
                       (k : Outcome -> Prog A)
| ConsoleError (label : string) (e : Js.Error) (k : Prog A).

Arguments Ret {A} a.
Arguments Throw {A} e.
Arguments AwaitGenerateContent {A} ai params k.
Arguments ConsoleError {A} label e k.

Fixpoint bind {A B : Type} (m : Prog A) (f : A -> Prog B) : Prog B :=
  match m with
  | Ret a => f a
  | Throw e => Throw e
  | AwaitGenerateContent ai params k =>
      AwaitGenerateContent ai params (fun o => bind (k o) f)
  | ConsoleError label e k => ConsoleError label e (bind k f)
  end.

Notation "x <- m ;; k" := (bind m (fun x => k))
  (at level 100, m at next level, right associativity).
Notation "m ;;; k" := (bind m (fun _ => k))
  (at level 100, right associativity).

(** [try { body } catch (error) { handler }]. *)
Fixpoint try_catch {A : Type} (body : Prog A) (handler : Js.Error -> Prog A)
  : Prog A :=
  match body with
  | Ret a => Ret a
  | Throw e => handler e
  | AwaitGenerateContent ai params k =>
      AwaitGenerateContent ai params (fun o => try_catch (k o) handler)
  | ConsoleError label e k => ConsoleError label e (try_catch k handler)
  end.

(** [await ai.models.generateContent(params)]: a rejection is thrown at the
    [await]. *)
Definition generateContent (ai : GoogleGenAI) (params : GenerateContentParameters)
  : Prog GenerateContentResponse :=
  AwaitGenerateContent ai params
    (fun o => match o with
              | Resolves response => Ret response
              | Rejects error => Throw error
              end).

Definition console_error (label : string) (e : Js.Error) : Prog unit :=
  ConsoleError label e (Ret tt).

(** [for (const x of xs) { ... return v ... }]: the body either returns from
    the enclosing function ([Some v]) or falls through to the next element. *)
Fixpoint for_of {X R : Type} (xs : list X) (body : X -> option R) : option R :=
  match xs with
  | [] => None
  | x :: rest =>
      match body x with
      | Some v => Some v
      | None => for_of rest body
      end
  end.

(** ** Running a program *)

Inductive Event : Type :=
| EvGenerateContent (ai : GoogleGenAI) (params : GenerateContentParameters)
| EvConsoleError (label : string) (e : Js.Error).

Inductive Settled (A : Type) : Type :=
| Fulfilled (a : A)
| Rejected (e : Js.Error).

Arguments Fulfilled {A} a.
Arguments Rejected {A} e.

(** The remote service: how the call made with a client and parameters
    settles. *)
Definition Remote : Type := GoogleGenAI -> GenerateContentParameters -> Outcome.

Fixpoint run {A : Type} (remote : Remote) (p : Prog A)
  : list Event * Settled A :=
  match p with
  | Ret a => ([], Fulfilled a)
  | Throw e => ([], Rejected e)
  | AwaitGenerateContent ai params k =>
      let (trace, r) := run remote (k (remote ai params)) in
      (EvGenerateContent ai params :: trace, r)
  | ConsoleError label e k =>
      let (trace, r) := run remote k in
      (EvConsoleError label e :: trace, r)
  end.

(** ** [services/geminiService.ts] *)

Definition no_image_generated : string :=
  "No image was generated. Please try a different instruction.".

Definition no_image_data_found : string :=
  "AI responded but no image data was found in the response.".

Definition failed_to_process : string :=
  "Failed to process image. Ensure your API key is valid.".

Definition new_GoogleGenAI (env : ProcessEnv) : GoogleGenAI :=
  {| apiKey := Js.or_else (API_KEY env) "" |}.

Definition enhancedPrompt (request : EditRequest) : string :=
  Js.trim
    (Js.LF ++
     "    You are an expert product photo editor. " ++ Js.LF ++
     "    User instruction: " ++ instruction request ++ Js.LF ++
     "    Please modify the provided image according to the instruction while maintaining high-quality resolution and professional studio aesthetics." ++ Js.LF ++
     "    If the user asks to remove background, ensure a clean professional cutout." ++ Js.LF ++
     "  ")%string.

Definition imagePart (request : EditRequest) : Part :=
  {| inlineData :=
       Some {| data := nth_error (Js.split "," (image request)) 1;
               GenAI.mimeType := Some (mimeType request) |};
     text := None |}.

Definition textPart (request : EditRequest) : Part :=
  {| inlineData := None; text := Some (enhancedPrompt request) |}.

Definition generateContent_params (request : EditRequest)
  : GenerateContentParameters :=
  {| model := "gemini-2.5-flash-image";
     contents := {| parts := Some [imagePart request; textPart request];
                    role := None |} |}.

(** [response.candidates?.[0]?.content?.parts]. *)
Definition first_candidate_parts (response : GenerateContentResponse)
  : option (list Part) :=
  candidates response ?> (fun cs => nth_error cs 0) ?> content ?> parts.

(** The body of the loop over the response parts: [Some url] is
    [return url], [None] falls through to the next part. *)
Definition scan_part (part : Part) : option string :=
  match inlineData part with
  | Some blob =>
      Some ("data:" ++ Js.interpolate (GenAI.mimeType blob) ++
            ";base64," ++ Js.interpolate (data blob))%string
  | None => None
  end.

Definition editImageWithGemini (env : ProcessEnv) (request : EditRequest)
  : Prog string :=
  let ai := new_GoogleGenAI env in
  try_catch
    (response <- generateContent ai (generateContent_params request) ;;
     match first_candidate_parts response with
     | None => Throw (Js.new_Error no_image_generated)
     | Some response_parts =>
         match for_of response_parts scan_part with
         | Some url => Ret url
         | None => Throw (Js.new_Error no_image_data_found)
         end
     end)
    (fun error =>
       console_error "Gemini Edit Error:" error ;;;
       Throw (Js.new_Error (Js.or_else (Js.message error) failed_to_process))).

(** ** Observations on a run *)

(** The promise's settlement and the events of one invocation. *)
Definition outcome (remote : Remote) (env : ProcessEnv) (request : EditRequest)
  : Settled string :=
  snd (run remote (editImageWithGemini env request)).

Definition trace (remote : Remote) (env : ProcessEnv) (request : EditRequest)
  : list Event :=
  fst (run remote (editImageWithGemini env request)).

(** The outbound generation calls among the events, in order. *)
Fixpoint calls (events : list Event)
  : list (GoogleGenAI * GenerateContentParameters) :=
  match events with
  | [] => []
  | EvGenerateContent ai params :: rest => (ai, params) :: calls rest
  | EvConsoleError _ _ :: rest => calls rest
  end.

(** All parts sent by the outbound calls, in order. *)
Definition sent_parts (events : list Event) : list Part :=
  flat_map (fun c => match parts (contents (snd c)) with
                     | Some ps => ps
                     | None => []
                     end)
           (calls events).

(** The [data] field of every inline-image part sent. *)
Definition sent_payloads (events : list Event) : list (option string) :=
  flat_map (fun p => match inlineData p with
                     | Some blob => [data blob]
                     | None => []
                     end)
           (sent_parts events).

(** The text of every text part sent. *)
Definition sent_texts (events : list Event) : list string :=
  flat_map (fun p => match text p with
                     | Some t => [t]
                     | None => []
                     end)
           (sent_parts events).

(** What a run that reaches the [catch] block looks like: after the call, the
    cause is logged and the promise rejects with a fresh error. *)
Definition caught (env : ProcessEnv) (request : EditRequest) (cause : Js.Error)
  : list Event * Settled string :=
  ([EvGenerateContent (new_GoogleGenAI env) (generateContent_params request);
    EvConsoleError "Gemini Edit Error:" cause],
   Rejected (Js.new_Error (Js.or_else (Js.message cause) failed_to_process))).

(** ** Vocabulary of the specification *)

(** [has_char c s]: the character occurs in the string. *)
Fixpoint has_char (c : ascii) (s : string) : bool :=
  match s with
  | EmptyString => false
  | String c' rest => Ascii.eqb c' c || has_char c rest
  end.

(** The substring strictly after the first comma; none without a comma. *)
Fixpoint after_first_comma (s : string) : option string :=
  match s with
  | EmptyString => None
  | String c rest => if Ascii.eqb c "," then Some rest
                     else after_first_comma rest
  end.

(** What stands before the first comma; the whole string without a comma. *)
Fixpoint before_first_comma (s : string) : string :=
  match s with
  | EmptyString => EmptyString
  | String c rest => if Ascii.eqb c "," then EmptyString
                     else String c (before_first_comma rest)
  end.

(** [data:<mime>;base64,<payload>]. *)
Definition data_url (mime payload : string) : string :=
  ("data:" ++ mime ++ ";base64," ++ payload)%string.

Definition is_data_url (s : string) : Prop :=
  exists mime payload, s = data_url mime payload.

(** A part that carries inline image data, as the adapter tests it. *)
Definition carries_image (p : Part) : Prop := inlineData p <> None.

(** [occurs_in needle s]: [needle] is a substring of [s]. *)
Definition occurs_in (needle s : string) : Prop :=
  exists before after, s = (before ++ needle ++ after)%string.

(** The two fixed pieces of the instruction template. *)
Definition prompt_preamble : string :=
  ("You are an expert product photo editor. " ++ Js.LF ++
   "    User instruction: ")%string.

Definition prompt_closing : string :=
  (Js.LF ++
   "    Please modify the provided image according to the instruction while maintaining high-quality resolution and professional studio aesthetics." ++ Js.LF ++
   "    If the user asks to remove background, ensure a clean professional cutout.")%string.

(** The response has no candidate, or its first candidate has no content, or
    that content has no parts: the [parts] property is absent or is an empty
    array. *)
Definition nothing_to_scan (response : GenerateContentResponse) : Prop :=
  match candidates response with
  | None | Some [] => True
  | Some (c :: _) =>
      match content c with
      | None => True
      | Some ct => parts ct = None \/ parts ct = Some []
      end
  end.

(** The same, with the [parts] property absent. *)
Definition parts_absent (response : GenerateContentResponse) : Prop :=
  match candidates response with
  | None | Some [] => True
  | Some (c :: _) =>
      match content c with
      | None => True
      | Some ct => parts ct = None
      end
  end.

(** ** Sample data *)

Definition image_part (mime payload : string) : Part :=
  {| inlineData := Some {| data := Some payload; GenAI.mimeType := Some mime |};
     text := None |}.

Definition text_part (t : string) : Part :=
  {| inlineData := None; text := Some t |}.

(** A response with one candidate holding the given parts. *)
Definition response_with_parts (ps : list Part) : GenerateContentResponse :=
  {| candidates :=
       Some [ {| content := Some {| parts := Some ps; role := Some "model" |};
                 finishReason := Some "STOP" |} ];
     modelVersion := None |}.

Definition remote_resolving (response : GenerateContentResponse) : Remote :=
  fun _ _ => Resolves response.

Definition remote_rejecting (error : Js.Error) : Remote :=
  fun _ _ => Rejects error.

Definition sample_env : ProcessEnv := {| API_KEY := Some "k3y" |}.

Definition sample_request : EditRequest :=
  {| image := "data:image/png;base64,AAAA";
     mimeType := "image/png";
     instruction := "Remove background" |}.

Definition request_with_second_comma : EditRequest :=
  {| image := "data:image/png;base64,AA,BB";
     mimeType := "image/png";
     instruction := "Remove background" |}.

Definition request_without_comma : EditRequest :=
  {| image := "AAAA"; mimeType := "image/png"; instruction := "Sharpen" |}.

Definition response_one_image : GenerateContentResponse :=
  response_with_parts [image_part "image/png" "BBBB"].

Definition response_text_then_images : GenerateContentResponse :=
  response_with_parts
    [text_part "Here is the edited photo."; text_part "";
     image_part "image/webp" "CCCC"; image_part "image/png" "DDDD"].

Definition response_text_only : GenerateContentResponse :=
  response_with_parts [text_part "I cannot edit this image."].

Definition response_empty_parts : GenerateContentResponse :=
  response_with_parts [].

Definition response_no_candidates : GenerateContentResponse :=
  {| candidates := Some []; modelVersion := Some "gemini-2.5-flash-image" |}.

(** A response that agrees with [response_text_only] on the parts of its
    first candidate and differs everywhere else. *)
Definition response_text_only_variant : GenerateContentResponse :=
  {| candidates :=
       Some [ {| content :=
                   Some {| parts := Some [text_part "I cannot edit this image."];
                           role := None |};
                 finishReason := Some "MAX_TOKENS" |};
              {| content :=
                   Some {| parts := Some [image_part "image/png" "EEEE"];
                           role := Some "model" |};
                 finishReason := Some "STOP" |} ];
     modelVersion := Some "other" |}.

(** ** [types.ts], the state of the shell *)

Module Types.

(** [string | null]: [None] is [null]. *)
Record ImageState : Type :=
  { original : option string; edited : option string;
    mimeType : option string }.

Inductive EditStatus : Type := IDLE | UPLOADING | PROCESSING | SUCCESS | ERROR.

Definition EditStatus_eqb (a b : EditStatus) : bool :=
  match a, b with
  | IDLE, IDLE | UPLOADING, UPLOADING | PROCESSING, PROCESSING
  | SUCCESS, SUCCESS | ERROR, ERROR => true
  | _, _ => false
  end.

End Types.

(** A [string | null | undefined] used as a condition: [null], [undefined]
    and the empty string are falsy. *)
Definition truthy (v : option string) : bool :=
  match v with
  | Some (String _ _) => true
  | _ => false
  end.

(** ** [components/Button.tsx] *)

Module Button.

Inductive Variant : Type := primary | secondary | outline | danger.

(** The props the component destructures, and of the remaining HTML
    attributes ([...props]) the one it also reads, [disabled]; [None] is a
    prop that was not passed. *)
Record ButtonProps : Type :=
  { variant : option Variant; isLoading : option bool;
    className : option string; disabled : option bool }.

Definition baseStyles : string :=
  "px-4 py-2 rounded-lg font-medium transition-all duration-200 flex items-center justify-center disabled:opacity-50 disabled:cursor-not-allowed".

Definition variants (v : Variant) : string :=
  match v with
  | primary => "bg-indigo-600 text-white hover:bg-indigo-700 shadow-sm"
  | secondary => "bg-white text-gray-900 border border-gray-200 hover:bg-gray-50"
  | outline => "bg-transparent text-indigo-600 border border-indigo-600 hover:bg-indigo-50"
  | danger => "bg-red-50 text-red-600 border border-red-200 hover:bg-red-100"
  end.

(** The [<button>] element rendered: its class, its [disabled] attribute
    ([None]: the attribute is [undefined]) and whether the spinner is
    drawn. *)
Record Rendered : Type :=
  { class : string; disabled_attribute : option bool; spinner : bool }.

(** [a || b] on [boolean | undefined]. *)
Definition or_undefined (a b : option bool) : option bool :=
  match a with
  | Some true => a
  | _ => b
  end.

(** Attributes are taken from left to right: [disabled={...}] is written
    first and the spread [{...props}] after it, so a [disabled] among the
    spread props replaces the value computed from [isLoading]. *)
Definition Button (props : ButtonProps) : Rendered :=
  let variant' := match variant props with Some v => v | None => primary end in
  let className' := match className props with Some c => c | None => "" end in
  let written := or_undefined (isLoading props) (disabled props) in
  {| class := (baseStyles ++ " " ++ variants variant' ++ " " ++ className')%string;
     disabled_attribute :=
       match disabled props with
       | Some d => Some d
       | None => written
       end;
     spinner := match isLoading props with Some true => true | _ => false end |}.

(** Whether the browser treats the button as disabled. *)
Definition is_disabled (r : Rendered) : bool :=
  match disabled_attribute r with
  | Some true => true
  | _ => false
  end.

End Button.

(** ** [App.tsx] *)

Module Action.
Record t : Type := { label : string; prompt : string }.
End Action.

Module App.

Definition QUICK_ACTIONS : list Action.t :=
  [ {| Action.label := "Remove Background";
       Action.prompt := "Remove the background and make it perfectly transparent or pure white." |};
    {| Action.label := "Studio Clean";
       Action.prompt := "Clean up the image, remove any dust or scratches, and add professional studio lighting." |};
    {| Action.label := "Add Shadow";
       Action.prompt := "Add a realistic soft contact shadow under the product." |};
    {| Action.label := "Retro Filter";
       Action.prompt := "Apply a subtle retro film filter to the photo." |};
    {| Action.label := "E-commerce Ready";
       Action.prompt := "Center the product, remove background, and optimize colors for a web shop." |} ].

(** The five [useState] cells of the component. *)
Record State : Type :=
  { image : Types.ImageState; status : Types.EditStatus; prompt : string;
    error : option string; zoomScale : float }.

Definition initial : State :=
  {| image := {| Types.original := None; Types.edited := None;
                 Types.mimeType := None |};
     status := Types.IDLE; prompt := ""; error := None;
     zoomScale := 1%float |}.

Definition setImage (f : Types.ImageState -> Types.ImageState) (st : State)
  : State :=
  {| image := f (image st); status := status st; prompt := prompt st;
     error := error st; zoomScale := zoomScale st |}.

Definition setStatus (s : Types.EditStatus) (st : State) : State :=
  {| image := image st; status := s; prompt := prompt st;
     error := error st; zoomScale := zoomScale st |}.

Definition setPrompt (p : string) (st : State) : State :=
  {| image := image st; status := status st; prompt := p;
     error := error st; zoomScale := zoomScale st |}.

Definition setError (e : option string) (st : State) : State :=
  {| image := image st; status := status st; prompt := prompt st;
     error := e; zoomScale := zoomScale st |}.

Definition setZoomScale (z : float) (st : State) : State :=
  {| image := image st; status := status st; prompt := prompt st;
     error := error st; zoomScale := z |}.

(** A [File], as far as the component reads it. *)
Record File : Type := { type : string }.

(** [handleFileUpload]: [e.target.files?.[0]]; the file whose reading is
    started, if any. *)
Definition handleFileUpload (files : option (list File)) : option File :=
  files ?> (fun fs => nth_error fs 0).

(** [reader.onload], with [reader.result] the data URL read. *)
Definition reader_onload (result : string) (file : File) (st : State) : State :=
  setZoomScale 1%float
    (setError None
       (setStatus Types.IDLE
          (setImage (fun _ => {| Types.original := Some result;
                                 Types.edited := None;
                                 Types.mimeType := Some (type file) |})
                    st))).

(** [processEdit], up to its early [return]: the request it is about to
    make, read from the state of the render the handler belongs to. *)
Definition processEdit_request (st : State) (customPrompt : option string)
  : option EditRequest :=
  let activePrompt := Js.or_else customPrompt (prompt st) in
  if negb (truthy (Types.original (image st)))
     || negb (truthy (Some activePrompt))
     || negb (truthy (Types.mimeType (image st)))
  then None
  else match Types.original (image st), Types.mimeType (image st) with
       | Some original, Some mimeType =>
           Some (Build_EditRequest original mimeType activePrompt)
       | _, _ => None
       end.

(** [processEdit], before the [await]. *)
Definition processEdit_begin (st : State) : State :=
  setError None (setStatus Types.PROCESSING st).

(** [processEdit], after the [await]: the [try] continues or the [catch]
    runs.  [setImage] is given a function of the state at that moment. *)
Definition processEdit_end (settled : Settled string) (st : State) : State :=
  match settled with
  | Fulfilled result =>
      setStatus Types.SUCCESS
        (setImage (fun prev => {| Types.original := Types.original prev;
                                  Types.edited := Some result;
                                  Types.mimeType := Types.mimeType prev |})
                  st)
  | Rejected err =>
      setStatus Types.ERROR (setError (Js.message err) st)
  end.

(** [processEdit] when nothing else happens during the [await]: the state
    afterwards and the events of the adapter. *)
Definition processEdit (remote : Remote) (env : ProcessEnv) (st : State)
           (customPrompt : option string) : State * list Event :=
  match processEdit_request st customPrompt with
  | None => (st, [])
  | Some request =>
      let (events, settled) := run remote (editImageWithGemini env request) in
      (processEdit_end settled (processEdit_begin st), events)
  end.

Definition handleReset (st : State) : State :=
  setZoomScale 1%float
    (setError None
       (setStatus Types.IDLE
          (setPrompt ""
             (setImage (fun _ => {| Types.original := None;
                                    Types.edited := None;
                                    Types.mimeType := None |})
                       st)))).

(** *** What is rendered *)

(** The props of the "Refine Image" button. *)
Definition refine_button (st : State) : Button.ButtonProps :=
  {| Button.variant := None;
     Button.isLoading :=
       Some (Types.EditStatus_eqb (status st) Types.PROCESSING);
     Button.className := Some "w-full";
     Button.disabled :=
       Some (negb (truthy (Types.original (image st)))
             || negb (truthy (Some (prompt st)))) |}.

(** The [disabled] attribute of the text area and of each quick-action
    button. *)
Definition quick_action_disabled (st : State) : bool :=
  negb (truthy (Types.original (image st)))
  || Types.EditStatus_eqb (status st) Types.PROCESSING.

(** The four alternatives of the canvas, each under its own condition. *)
Definition shows_placeholder (st : State) : bool :=
  negb (truthy (Types.original (image st)))
  && negb (truthy (Types.edited (image st))).

Definition shows_original (st : State) : bool :=
  truthy (Types.original (image st))
  && negb (truthy (Types.edited (image st)))
  && negb (Types.EditStatus_eqb (status st) Types.PROCESSING).

Definition shows_processing (st : State) : bool :=
  Types.EditStatus_eqb (status st) Types.PROCESSING.

Definition shows_comparison (st : State) : bool :=
  truthy (Types.edited (image st)).

(** *** The shell over time *)

(** The component together with the calls of [processEdit] that are waiting
    for the adapter. *)
Record Shell : Type := { ui : State; pending : list EditRequest }.

Definition start : Shell := {| ui := initial; pending := [] |}.

(** What can happen to the shell.  [Onload]: a file has been read.
    [Typed]: the text area changed.  [Refine]: [processEdit()].  [Quick n]:
    the handler of quick action [n].  [Settle k remote]: the adapter call of
    the pending request [k] settles, the remote behaving as [remote].
    [Zoom]: the slider moved.  Whether a control is enabled is not modelled:
    every event is accepted at every moment. *)
Inductive ShellEvent : Type :=
| Onload (result : string) (file : File)
| Typed (value : string)
| Refine
| Quick (n : nat)
| Settle (k : nat) (remote : Remote)
| Reset
| Zoom (z : float).

(** Element [k] of a list and the list without it. *)
Fixpoint take_out {X : Type} (k : nat) (xs : list X) : option (X * list X) :=
  match xs, k with
  | [], _ => None
  | x :: rest, 0 => Some (x, rest)
  | x :: rest, S k' =>
      match take_out k' rest with
      | Some (y, rest') => Some (y, x :: rest')
      | None => None
      end
  end.

Definition handle (env : ProcessEnv) (ev : ShellEvent) (sh : Shell) : Shell :=
  match ev with
  | Onload result file =>
      {| ui := reader_onload result file (ui sh); pending := pending sh |}
  | Typed value =>
      {| ui := setPrompt value (ui sh); pending := pending sh |}
  | Refine =>
      match processEdit_request (ui sh) None with
      | None => sh
      | Some request =>
          {| ui := processEdit_begin (ui sh);
             pending := pending sh ++ [request] |}
      end
  | Quick n =>
      match nth_error QUICK_ACTIONS n with
      | None => sh
      | Some action =>
          let st := setPrompt (Action.prompt action) (ui sh) in
          match processEdit_request (ui sh) (Some (Action.prompt action)) with
          | None => {| ui := st; pending := pending sh |}
          | Some request =>
              {| ui := processEdit_begin st;
                 pending := pending sh ++ [request] |}
          end
      end
  | Settle k remote =>
      match take_out k (pending sh) with
      | None => sh
      | Some (request, rest) =>
          {| ui := processEdit_end (outcome remote env request) (ui sh);
             pending := rest |}
      end
  | Reset => {| ui := handleReset (ui sh); pending := pending sh |}
  | Zoom z => {| ui := setZoomScale z (ui sh); pending := pending sh |}
  end.

(** The shell after a sequence of events, the first event first. *)
Definition after (env : ProcessEnv) (events : list ShellEvent) : Shell :=
  fold_left (fun sh ev => handle env ev sh) events start.

End App.

(** *** Sample states *)

Definition state_loaded : App.State :=
  App.setPrompt "Make it brighter"
    (App.reader_onload "data:image/png;base64,AAAA" {| App.type := "image/png" |}
       App.initial).

Definition state_untyped_file : App.State :=
  App.setPrompt "Make it brighter"
    (App.reader_onload "data:;base64,AAAA" {| App.type := "" |} App.initial).

(** *** Properties of a shell *)

(** A request with nothing empty in it. *)
Definition request_nonempty (request : EditRequest) : Prop :=
  image request <> EmptyString /\ mimeType request <> EmptyString
  /\ instruction request <> EmptyString.

(** What holds of the shell whatever has happened to it. *)
Record shell_invariant (sh : App.Shell) : Prop :=
  { original_with_mimeType :
      Types.original (App.image (App.ui sh)) = None
      <-> Types.mimeType (App.image (App.ui sh)) = None;
    not_UPLOADING : App.status (App.ui sh) <> Types.UPLOADING;
    ERROR_with_message :
      App.status (App.ui sh) = Types.ERROR ->
      exists m, App.error (App.ui sh) = Some m /\ m <> EmptyString;
    SUCCESS_with_edited :
      App.status (App.ui sh) = Types.SUCCESS ->
      truthy (Types.edited (App.image (App.ui sh))) = true;
    PROCESSING_with_pending :
      App.status (App.ui sh) = Types.PROCESSING -> App.pending sh <> [];
    pending_nonempty : Forall request_nonempty (App.pending sh) }.

(** One edit under way: a file loaded, an instruction typed, "Refine Image"
    clicked. *)
Definition events_refining : list App.ShellEvent :=
  [App.Onload "data:image/png;base64,AAAA" {| App.type := "image/png" |};
   App.Typed "Make it brighter"; App.Refine].

(** A second edit under way after a first one has succeeded. *)
Definition events_refining_again : list App.ShellEvent :=
  events_refining
  ++ [App.Settle 0 (remote_resolving response_one_image); App.Refine].

(** ** Strings *)

Lemma append_nil_r (s : string) : (s ++ "")%string = s.
Proof. induction s as [|c s IH]; simpl; [reflexivity | now rewrite IH]. Qed.

Lemma append_assoc (a b c : string) :
  ((a ++ b) ++ c)%string = (a ++ (b ++ c))%string.
Proof. induction a as [|x a IH]; simpl; [reflexivity | now rewrite IH]. Qed.

Lemma append_nonempty_r (a b : string) :
  b <> EmptyString -> (a ++ b)%string <> EmptyString.
Proof. destruct a; simpl; [auto | discriminate]. Qed.

Lemma split_nonempty (sep : ascii) (s : string) : Js.split sep s <> [].
Proof.
  destruct s as [|c s]; simpl; [discriminate|].
  destruct (Ascii.eqb c sep); [discriminate|].
  destruct (Js.split sep s); discriminate.
Qed.

(** Without the separator the string is its own single segment. *)
Lemma split_without_sep (sep : ascii) (s : string) :
  has_char sep s = false -> Js.split sep s = [s].
Proof.
  induction s as [|c s IH]; simpl; [reflexivity|].
  intros H. apply orb_false_iff in H as [Hc Hs].
  rewrite Hc, (IH Hs). reflexivity.
Qed.

(** The first separator ends the first segment. *)
Lemma split_at_first_sep (sep : ascii) (pre rest : string) :
  has_char sep pre = false ->
  Js.split sep (pre ++ String sep rest) = pre :: Js.split sep rest.
Proof.
  induction pre as [|c pre IH]; simpl.
  - intros _. now rewrite Ascii.eqb_refl.
  - intros H. apply orb_false_iff in H as [Hc Hp].
    rewrite Hc, (IH Hp). reflexivity.
Qed.

(** A string with a comma splits at its first comma. *)
Lemma after_first_comma_split (s rest : string) :
  after_first_comma s = Some rest ->
  exists pre, s = (pre ++ String "," rest)%string /\ has_char "," pre = false.
Proof.
  revert rest. induction s as [|c s IH]; simpl; intros rest H; [discriminate|].
  destruct (Ascii.eqb c ",") eqn:Hc.
  - apply Ascii.eqb_eq in Hc. subst c. injection H as <-.
    exists EmptyString. split; reflexivity.
  - destruct (IH rest H) as (pre & -> & Hpre).
    exists (String c pre). simpl. rewrite Hc. split; [reflexivity | exact Hpre].
Qed.

Lemma after_first_comma_none (s : string) :
  after_first_comma s = None <-> has_char "," s = false.
Proof.
  induction s as [|c s IH]; simpl; [tauto|].
  destruct (Ascii.eqb c ","); simpl; [split; discriminate | exact IH].
Qed.

(** Element 1 of the split is absent exactly when there is no comma. *)
Lemma split_second_none (s : string) :
  nth_error (Js.split "," s) 1 = None <-> has_char "," s = false.
Proof.
  split.
  - intros H. destruct (after_first_comma s) as [rest|] eqn:E.
    + destruct (after_first_comma_split _ _ E) as (pre & -> & Hpre).
      rewrite (split_at_first_sep _ _ _ Hpre) in H. simpl in H.
      destruct (Js.split "," rest) eqn:E'; [|discriminate].
      now apply split_nonempty in E'.
    + now apply after_first_comma_none.
  - intros H. now rewrite (split_without_sep _ _ H).
Qed.

(** Element 1 of the split is the text between the first and the second
    comma, or up to the end when there is no second comma. *)
Lemma split_second_segment (pre seg : string) :
  has_char "," pre = false -> has_char "," seg = false ->
  (forall tail,
     nth_error (Js.split "," (pre ++ String "," (seg ++ String "," tail))) 1
     = Some seg)
  /\ nth_error (Js.split "," (pre ++ String "," seg)) 1 = Some seg.
Proof.
  intros Hpre Hseg. split; [intros tail|].
  - now rewrite (split_at_first_sep _ _ _ Hpre), (split_at_first_sep _ _ _ Hseg).
  - now rewrite (split_at_first_sep _ _ _ Hpre), (split_without_sep _ _ Hseg).
Qed.

Lemma trimEnd_append (a b : string) :
  Js.trimEnd b <> EmptyString ->
  Js.trimEnd (a ++ b) = (a ++ Js.trimEnd b)%string.
Proof.
  intros Hb. induction a as [|c a IH]; simpl; [reflexivity|].
  rewrite IH.
  destruct (a ++ Js.trimEnd b)%string eqn:E; [|reflexivity].
  exfalso. revert E. now apply append_nonempty_r.
Qed.


(** ** The adapter, run against a remote *)

(** Every run of the adapter, by cases on what the remote does. *)
Lemma run_editImageWithGemini
      (remote : Remote) (env : ProcessEnv) (request : EditRequest) :
  run remote (editImageWithGemini env request) =
  match remote (new_GoogleGenAI env) (generateContent_params request) with
  | Rejects error => caught env request error
  | Resolves response =>
      match first_candidate_parts response with
      | None => caught env request (Js.new_Error no_image_generated)
      | Some ps =>
          match for_of ps scan_part with
          | Some url =>
              ([EvGenerateContent (new_GoogleGenAI env)
                                  (generateContent_params request)],
               Fulfilled url)
          | None => caught env request (Js.new_Error no_image_data_found)
          end
      end
  end.
Proof.
  unfold editImageWithGemini, generateContent, console_error, caught.
  cbn [try_catch bind run].
  destruct (remote _ _) as [response|error]; cbn [try_catch bind run].
  - destruct (first_candidate_parts response) as [ps|]; cbn [try_catch bind run].
    + destruct (for_of ps scan_part); reflexivity.
    + reflexivity.
  - reflexivity.
Qed.

(** The scan skips parts without inline data and stops at the first part
    that has some. *)
Lemma for_of_first_image (texts rest : list Part) (img : Part) :
  Forall (fun p => inlineData p = None) texts ->
  for_of (texts ++ img :: rest) scan_part
  = match scan_part img with
    | Some url => Some url
    | None => for_of rest scan_part
    end.
Proof.
  induction 1 as [|p texts Hp _ IH]; simpl; [reflexivity|].
  unfold scan_part at 1. now rewrite Hp.
Qed.

Lemma for_of_no_image (ps : list Part) :
  Forall (fun p => inlineData p = None) ps -> for_of ps scan_part = None.
Proof.
  induction 1 as [|p ps Hp _ IH]; simpl; [reflexivity|].
  unfold scan_part at 1. now rewrite Hp.
Qed.

Lemma first_candidate_parts_spelled
      (response : GenerateContentResponse) (first : Candidate)
      (others : list Candidate) (ct : Content) :
  candidates response = Some (first :: others) ->
  content first = Some ct ->
  first_candidate_parts response = parts ct.
Proof.
  intros Hc Hct. unfold first_candidate_parts. rewrite Hc. simpl.
  now rewrite Hct.
Qed.

Lemma parts_absent_first_candidate_parts (response : GenerateContentResponse) :
  parts_absent response <-> first_candidate_parts response = None.
Proof.
  unfold parts_absent, first_candidate_parts.
  destruct (candidates response) as [[|c cs]|]; simpl; try tauto.
  destruct (content c) as [ct|]; simpl; tauto.
Qed.

Lemma messages_distinct : no_image_data_found <> no_image_generated.
Proof. discriminate. Qed.

(** ** Properties of the adapter *)

(** C1. When the parts of the first candidate contain a part with inline
    image data, the promise resolves to [data:<mime>;base64,<payload>], built
    from the declared mime type and payload of the first such part, however
    many parts without inline data come before it. *)
Theorem first_image_part_returned
        (remote : Remote) (env : ProcessEnv) (request : EditRequest)
        (response : GenerateContentResponse)
        (first : Candidate) (others : list Candidate) (ct : Content)
        (texts rest : list Part) (img : Part) (blob : Blob)
        (mime payload : string) :
  remote (new_GoogleGenAI env) (generateContent_params request)
    = Resolves response ->
  candidates response = Some (first :: others) ->
  content first = Some ct ->
  parts ct = Some (texts ++ img :: rest) ->
  Forall (fun p => inlineData p = None) texts ->
  inlineData img = Some blob ->
  GenAI.mimeType blob = Some mime ->
  data blob = Some payload ->
  outcome remote env request = Fulfilled (data_url mime payload).
Proof.
  intros Hremote Hcs Hct Hps Htexts Himg Hmime Hdata.
  unfold outcome. rewrite run_editImageWithGemini, Hremote.
  rewrite (first_candidate_parts_spelled _ _ _ _ Hcs Hct), Hps.
  rewrite (for_of_first_image _ _ _ Htexts).
  unfold scan_part. rewrite Himg, Hmime, Hdata. reflexivity.
Qed.

Lemma first_image_part_returned_witness :
  outcome (remote_resolving response_text_then_images) sample_env sample_request
  = Fulfilled "data:image/webp;base64,CCCC".
Proof.
  apply (first_image_part_returned
           (remote_resolving response_text_then_images) sample_env
           sample_request response_text_then_images
           {| content :=
                Some {| parts :=
                          Some [text_part "Here is the edited photo.";
                                text_part ""; image_part "image/webp" "CCCC";
                                image_part "image/png" "DDDD"];
                        role := Some "model" |};
              finishReason := Some "STOP" |}
           []
           {| parts :=
                Some [text_part "Here is the edited photo."; text_part "";
                      image_part "image/webp" "CCCC";
                      image_part "image/png" "DDDD"];
              role := Some "model" |}
           [text_part "Here is the edited photo."; text_part ""]
           [image_part "image/png" "DDDD"]
           (image_part "image/webp" "CCCC")
           {| data := Some "CCCC"; GenAI.mimeType := Some "image/webp" |}
           "image/webp" "CCCC");
    try reflexivity.
  repeat constructor.
Defined.

(** The scenario of the specification: one image part comes back. *)
Example scenario_remove_background :
  outcome (remote_resolving response_one_image) sample_env sample_request
  = Fulfilled "data:image/png;base64,BBBB".
Proof. reflexivity. Qed.

(** C3, as stated, fails for a first candidate whose [parts] is the empty
    array: such a candidate has no parts, yet the guard lets the empty array
    through (an array is truthy), the loop runs zero times and the promise
    rejects with the other message. *)
Lemma empty_parts_rejected_with_other_message :
  nothing_to_scan response_empty_parts
  /\ outcome (remote_resolving response_empty_parts) sample_env sample_request
     = Rejected (Js.new_Error no_image_data_found)
  /\ outcome (remote_resolving response_empty_parts) sample_env sample_request
     <> Rejected (Js.new_Error no_image_generated).
Proof.
  split; [right; reflexivity|].
  split; [reflexivity | discriminate].
Qed.

(** C3, amended.  When the response has no candidates (the list is absent or
    empty), or its first candidate has no content, or that content has no
    [parts] property, the promise rejects with the fixed message that no
    image was generated and that asks for a different instruction. *)
Theorem parts_absent_rejected
        (remote : Remote) (env : ProcessEnv) (request : EditRequest)
        (response : GenerateContentResponse) :
  remote (new_GoogleGenAI env) (generateContent_params request)
    = Resolves response ->
  parts_absent response ->
  outcome remote env request
  = Rejected
      {| Js.message :=
           Some "No image was generated. Please try a different instruction." |}.
Proof.
  intros Hremote Habsent. unfold outcome.
  rewrite run_editImageWithGemini, Hremote.
  apply parts_absent_first_candidate_parts in Habsent. rewrite Habsent.
  reflexivity.
Qed.

Lemma parts_absent_rejected_witness :
  outcome (remote_resolving response_no_candidates) sample_env sample_request
  = Rejected
      {| Js.message :=
           Some "No image was generated. Please try a different instruction." |}.
Proof.
  apply (parts_absent_rejected
           (remote_resolving response_no_candidates) sample_env sample_request
           response_no_candidates).
  - reflexivity.
  - exact I.
Defined.

(** C4. When the first candidate has a non-empty list of parts and none of
    them carries inline image data, the promise rejects with the fixed
    message that the AI responded but no image data was found.  The error
    thrown in the [try] block passes through the [catch] block, where it is
    logged, and its message is the message of the rejection; that message is
    not the one of the case without candidates. *)
Theorem no_image_part_rejected
        (remote : Remote) (env : ProcessEnv) (request : EditRequest)
        (response : GenerateContentResponse)
        (first : Candidate) (others : list Candidate) (ct : Content)
        (ps : list Part) :
  remote (new_GoogleGenAI env) (generateContent_params request)
    = Resolves response ->
  candidates response = Some (first :: others) ->
  content first = Some ct ->
  parts ct = Some ps ->
  ps <> [] ->
  Forall (fun p => ~ carries_image p) ps ->
  outcome remote env request
  = Rejected
      {| Js.message :=
           Some "AI responded but no image data was found in the response." |}
  /\ trace remote env request
     = [EvGenerateContent (new_GoogleGenAI env) (generateContent_params request);
        EvConsoleError "Gemini Edit Error:"
          {| Js.message :=
               Some "AI responded but no image data was found in the response." |}]
  /\ "AI responded but no image data was found in the response."
     <> no_image_generated.
Proof.
  intros Hremote Hcs Hct Hps _ Hnone.
  assert (Hscan : for_of ps scan_part = None).
  { apply for_of_no_image. eapply Forall_impl; [|exact Hnone].
    intros p Hp. unfold carries_image in Hp.
    destruct (inlineData p); [exfalso; apply Hp; discriminate | reflexivity]. }
  unfold outcome, trace. rewrite run_editImageWithGemini, Hremote.
  rewrite (first_candidate_parts_spelled _ _ _ _ Hcs Hct), Hps, Hscan.
  repeat split. exact messages_distinct.
Qed.

Lemma no_image_part_rejected_witness :
  outcome (remote_resolving response_text_only) sample_env sample_request
  = Rejected (Js.new_Error no_image_data_found).
Proof.
  apply (no_image_part_rejected
           (remote_resolving response_text_only) sample_env sample_request
           response_text_only
           {| content :=
                Some {| parts := Some [text_part "I cannot edit this image."];
                        role := Some "model" |};
              finishReason := Some "STOP" |}
           []
           {| parts := Some [text_part "I cannot edit this image."];
              role := Some "model" |}
           [text_part "I cannot edit this image."]);
    try reflexivity.
  - discriminate.
  - repeat constructor. unfold carries_image. simpl. intros H. now apply H.
Defined.

(** C5. When the remote call itself fails, the promise rejects with the
    message of the underlying failure if that message is present and not
    empty, and with the fixed fallback message about the API key
    otherwise. *)
Theorem remote_failure_message
        (remote : Remote) (env : ProcessEnv) (request : EditRequest)
        (error : Js.Error) :
  remote (new_GoogleGenAI env) (generateContent_params request)
    = Rejects error ->
  (forall m, Js.message error = Some m -> m <> EmptyString ->
             outcome remote env request = Rejected {| Js.message := Some m |})
  /\ (Js.message error = None \/ Js.message error = Some EmptyString ->
      outcome remote env request
      = Rejected
          {| Js.message :=
               Some "Failed to process image. Ensure your API key is valid." |}).
Proof.
  intros Hremote. unfold outcome. rewrite run_editImageWithGemini, Hremote.
  unfold caught. cbn [snd]. split.
  - intros m Hm Hne. rewrite Hm. destruct m; [contradiction | reflexivity].
  - intros [Hm|Hm]; rewrite Hm; reflexivity.
Qed.

Lemma remote_failure_message_witness :
  outcome (remote_rejecting {| Js.message := Some "fetch failed" |})
          sample_env sample_request
  = Rejected {| Js.message := Some "fetch failed" |}
  /\ outcome (remote_rejecting {| Js.message := None |})
             sample_env sample_request
     = Rejected (Js.new_Error failed_to_process).
Proof.
  split.
  - apply (proj1 (remote_failure_message
                    (remote_rejecting {| Js.message := Some "fetch failed" |})
                    sample_env sample_request
                    {| Js.message := Some "fetch failed" |} eq_refl)
                 "fetch failed" eq_refl).
    discriminate.
  - apply (proj2 (remote_failure_message
                    (remote_rejecting {| Js.message := None |})
                    sample_env sample_request
                    {| Js.message := None |} eq_refl)).
    left. reflexivity.
Defined.

(** *** The request sent *)

(** The template, once trimmed, is the instruction between two fixed
    strings: [trim] eats the first line break and indentation and the last
    ones, and stops at the letters around the instruction. *)
Lemma enhancedPrompt_template (request : EditRequest) :
  enhancedPrompt request
  = (prompt_preamble ++ instruction request ++ prompt_closing)%string.
Proof.
  unfold enhancedPrompt, Js.trim.
  set (tail := (Js.LF ++ "  ")%string).
  change (Js.trimEnd (prompt_preamble ++
                      (instruction request ++ (prompt_closing ++ tail)))
          = (prompt_preamble ++ instruction request ++ prompt_closing)%string).
  assert (Hclosing : Js.trimEnd (prompt_closing ++ tail) = prompt_closing)
    by (vm_compute; reflexivity).
  assert (Hne : prompt_closing <> EmptyString) by discriminate.
  rewrite trimEnd_append.
  - rewrite trimEnd_append; rewrite Hclosing; [reflexivity | exact Hne].
  - rewrite trimEnd_append; rewrite Hclosing; [|exact Hne].
    now apply append_nonempty_r.
Qed.

(** Whatever the remote does, one call is made, with the client and the
    parameters built from the environment and the request. *)
Lemma calls_trace (remote : Remote) (env : ProcessEnv) (request : EditRequest) :
  calls (trace remote env request)
  = [(new_GoogleGenAI env, generateContent_params request)].
Proof.
  unfold trace. rewrite run_editImageWithGemini.
  destruct (remote _ _) as [response|error]; [|reflexivity].
  destruct (first_candidate_parts response) as [ps|]; [|reflexivity].
  destruct (for_of ps scan_part); reflexivity.
Qed.

Lemma sent_parts_trace (remote : Remote) (env : ProcessEnv)
      (request : EditRequest) :
  sent_parts (trace remote env request) = [imagePart request; textPart request].
Proof. unfold sent_parts. rewrite calls_trace. reflexivity. Qed.

Lemma sent_payloads_trace (remote : Remote) (env : ProcessEnv)
      (request : EditRequest) :
  sent_payloads (trace remote env request)
  = [nth_error (Js.split "," (image request)) 1].
Proof. unfold sent_payloads. rewrite sent_parts_trace. reflexivity. Qed.

(** The payload of a data URL whose mime type and payload are free of
    commas, as base64 text is, is element 1 of its split. *)
Lemma split_data_url (mime payload : string) :
  has_char "," mime = false -> has_char "," payload = false ->
  nth_error (Js.split "," (data_url mime payload)) 1 = Some payload.
Proof.
  intros Hmime Hpayload. unfold data_url.
  replace ("data:" ++ mime ++ ";base64," ++ payload)%string
    with (("data:" ++ mime ++ ";base64") ++ String "," payload)%string.
  - apply split_second_segment; [|exact Hpayload].
    simpl. clear Hpayload. induction mime as [|c mime IH]; simpl in *.
    + reflexivity.
    + apply orb_false_iff in Hmime as [Hc Hm]. rewrite Hc. simpl. now apply IH.
  - simpl. do 5 f_equal. now rewrite append_assoc.
Qed.

(** A data URL has a comma. *)
Lemma data_url_has_comma (s : string) : is_data_url s -> has_char "," s = true.
Proof.
  intros (mime & payload & ->). unfold data_url. simpl.
  induction mime as [|c mime IH]; simpl; [reflexivity|].
  rewrite IH. apply orb_true_r.
Qed.

(** Element 1 of the split is the first comma-free stretch of what follows
    the first comma. *)
Lemma split_second_after_first_comma (s : string) :
  nth_error (Js.split "," s) 1
  = option_map (fun rest => hd EmptyString (Js.split "," rest))
               (after_first_comma s).
Proof.
  destruct (after_first_comma s) as [rest|] eqn:E; simpl.
  - destruct (after_first_comma_split _ _ E) as (pre & -> & Hpre).
    rewrite (split_at_first_sep _ _ _ Hpre). simpl.
    destruct (Js.split "," rest) eqn:E'; [|reflexivity].
    now apply split_nonempty in E'.
  - apply split_second_none. now apply after_first_comma_none.
Qed.

(** When nothing after the first comma is a comma, the payload sent is all
    of what follows the first comma. *)
Lemma payload_exact_without_second_comma
      (remote : Remote) (env : ProcessEnv) (request : EditRequest)
      (rest : string) :
  after_first_comma (image request) = Some rest ->
  has_char "," rest = false ->
  sent_payloads (trace remote env request) = [Some rest].
Proof.
  intros Hrest Hfree. rewrite sent_payloads_trace.
  rewrite split_second_after_first_comma, Hrest. simpl.
  now rewrite (split_without_sep _ _ Hfree).
Qed.

(** With a second comma, the payload sent stops there and differs from what
    follows the first comma. *)
Lemma payload_ends_at_second_comma
      (remote : Remote) (env : ProcessEnv) (request : EditRequest)
      (pre seg tail : string) :
  has_char "," pre = false -> has_char "," seg = false ->
  image request = (pre ++ String "," (seg ++ String "," tail))%string ->
  sent_payloads (trace remote env request) = [Some seg]
  /\ after_first_comma (image request) = Some (seg ++ String "," tail)%string
  /\ seg <> (seg ++ String "," tail)%string.
Proof.
  intros Hpre Hseg Himage. rewrite sent_payloads_trace, Himage.
  split; [|split].
  - now rewrite (proj1 (split_second_segment _ _ Hpre Hseg)).
  - clear Himage. induction pre as [|c pre IH]; simpl in *; [reflexivity|].
    apply orb_false_iff in Hpre as [-> Hpre]. now apply IH.
  - clear. induction seg as [|c seg IH]; simpl; [discriminate|].
    intros [= H]. now apply IH.
Qed.

(** C2, at a request whose image has a second comma: what follows the first
    comma is ["AA,BB"], and the payload sent is ["AA"]; [split] cuts at every
    comma and element 1 ends at the second one. *)
Theorem payload_cut_at_second_comma :
  after_first_comma (image request_with_second_comma) = Some "AA,BB"
  /\ sent_payloads
       (trace (remote_resolving response_one_image) sample_env
              request_with_second_comma)
     = [Some "AA"].
Proof. split; reflexivity. Qed.

(** The first segment of a split is what stands before the first comma. *)
Lemma split_first_segment (s : string) :
  hd EmptyString (Js.split "," s) = before_first_comma s.
Proof.
  induction s as [|c s IH]; simpl; [reflexivity|].
  destruct (Ascii.eqb c ","); [reflexivity|].
  rewrite <- IH. destruct (Js.split "," s) eqn:E; [|reflexivity].
  now apply split_nonempty in E.
Qed.

(** C6. Every invocation, whatever the remote does, makes exactly one
    generation call.  The call names the model [gemini-2.5-flash-image] and
    carries exactly two parts, in this order.  The first is the inline-image
    part: its mime type is the request's, and its data is what follows the
    first comma of the image, up to the next comma or to the end; there is
    no data when the image has no comma.  The second is the text part: the
    fixed preamble, the instruction, the fixed closing.  The data is
    therefore not always the stripped payload: for the image
    [data:image/png;base64,AA,BB] what follows the first comma is [AA,BB],
    and [AA] is sent. *)
Theorem one_call_two_parts :
  (forall (remote : Remote) (env : ProcessEnv) (request : EditRequest),
     calls (trace remote env request)
     = [( {| apiKey := Js.or_else (API_KEY env) "" |},
          {| model := "gemini-2.5-flash-image";
             contents :=
               {| parts :=
                    Some [ {| inlineData :=
                                Some {| data :=
                                          option_map before_first_comma
                                            (after_first_comma (image request));
                                        GenAI.mimeType :=
                                          Some (mimeType request) |};
                              text := None |};
                           {| inlineData := None;
                              text :=
                                Some (prompt_preamble ++ instruction request ++
                                      prompt_closing)%string |} ];
                  role := None |} |} )])
  /\ after_first_comma (image request_with_second_comma) = Some "AA,BB"
  /\ (forall (remote : Remote) (env : ProcessEnv),
        sent_payloads (trace remote env request_with_second_comma)
        = [Some "AA"]).
Proof.
  split; [|split].
  - intros remote env request. rewrite calls_trace.
    unfold generateContent_params, imagePart, textPart, new_GoogleGenAI.
    rewrite enhancedPrompt_template, split_second_after_first_comma.
    destruct (after_first_comma (image request)) as [rest|]; simpl;
      [|reflexivity].
    now rewrite split_first_segment.
  - reflexivity.
  - intros remote env. now rewrite sent_payloads_trace.
Qed.

(** C7. The outcome depends on the response only through the parts of its
    first candidate: two responses that agree on
    [candidates?.[0]?.content?.parts] lead to the same settlement, and to the
    same events, whatever their other candidates and properties are. *)
Theorem only_first_candidate_parts_read
        (remote1 remote2 : Remote) (env : ProcessEnv) (request : EditRequest)
        (response1 response2 : GenerateContentResponse) :
  remote1 (new_GoogleGenAI env) (generateContent_params request)
    = Resolves response1 ->
  remote2 (new_GoogleGenAI env) (generateContent_params request)
    = Resolves response2 ->
  first_candidate_parts response1 = first_candidate_parts response2 ->
  outcome remote1 env request = outcome remote2 env request
  /\ trace remote1 env request = trace remote2 env request.
Proof.
  intros H1 H2 Hagree. unfold outcome, trace.
  rewrite !run_editImageWithGemini, H1, H2, Hagree. split; reflexivity.
Qed.

Lemma only_first_candidate_parts_read_witness :
  response_text_only <> response_text_only_variant
  /\ outcome (remote_resolving response_text_only) sample_env sample_request
     = outcome (remote_resolving response_text_only_variant)
               sample_env sample_request.
Proof.
  split; [discriminate|].
  apply (only_first_candidate_parts_read
           (remote_resolving response_text_only)
           (remote_resolving response_text_only_variant)
           sample_env sample_request
           response_text_only response_text_only_variant);
    reflexivity.
Defined.

(** C8. The text sent is the instruction inside one fixed template: the
    preamble, which names an expert product photo editor, then the
    instruction as given, then the closing, which asks for a clean cutout
    when the background is to be removed.  Preamble and closing do not depend
    on the request, so the texts of two requests differ in the instruction
    only. *)
Theorem instruction_in_fixed_template
        (remote : Remote) (env : ProcessEnv) (request : EditRequest) :
  sent_texts (trace remote env request)
  = [(prompt_preamble ++ instruction request ++ prompt_closing)%string]
  /\ occurs_in "You are an expert product photo editor." prompt_preamble
  /\ occurs_in
       "If the user asks to remove background, ensure a clean professional cutout."
       prompt_closing.
Proof.
  split; [|split].
  - unfold sent_texts. rewrite sent_parts_trace. simpl.
    now rewrite enhancedPrompt_template.
  - exists EmptyString, (" " ++ Js.LF ++ "    User instruction: ")%string.
    reflexivity.
  - exists (Js.LF ++
            "    Please modify the provided image according to the instruction while maintaining high-quality resolution and professional studio aesthetics." ++
            Js.LF ++ "    ")%string, EmptyString.
    reflexivity.
Qed.

(** C9. An image without a comma is not rejected before the call: the call
    is the first event, and its inline-image part has no data, element 1 of
    the split being absent.  An image that is a data URL always yields a
    payload. *)
Theorem image_without_comma_sent_without_data
        (remote : Remote) (env : ProcessEnv) (request : EditRequest) :
  (has_char "," (image request) = false ->
   (exists rest,
      trace remote env request
      = EvGenerateContent (new_GoogleGenAI env) (generateContent_params request)
        :: rest)
   /\ sent_payloads (trace remote env request) = [None])
  /\ (is_data_url (image request) ->
      exists payload,
        sent_payloads (trace remote env request) = [Some payload]).
Proof.
  split.
  - intros Hfree. split.
    + unfold trace. rewrite run_editImageWithGemini. unfold caught.
      destruct (remote _ _) as [response|error]; [|eexists; reflexivity].
      destruct (first_candidate_parts response) as [ps|];
        [|eexists; reflexivity].
      destruct (for_of ps scan_part); eexists; reflexivity.
    + rewrite sent_payloads_trace.
      now rewrite (proj2 (split_second_none _) Hfree).
  - intros Hurl. rewrite sent_payloads_trace.
    destruct (nth_error (Js.split "," (image request)) 1) as [payload|] eqn:E.
    + now exists payload.
    + apply split_second_none in E.
      rewrite (data_url_has_comma _ Hurl) in E. discriminate.
Qed.

Lemma image_without_comma_sent_without_data_witness :
  sent_payloads (trace (remote_resolving response_one_image) sample_env
                       request_without_comma) = [None]
  /\ exists payload,
       sent_payloads (trace (remote_resolving response_one_image) sample_env
                            sample_request) = [Some payload].
Proof.
  split.
  - apply (proj1 (image_without_comma_sent_without_data
                    (remote_resolving response_one_image) sample_env
                    request_without_comma)).
    reflexivity.
  - apply (proj2 (image_without_comma_sent_without_data
                    (remote_resolving response_one_image) sample_env
                    sample_request)).
    exists "image/png", "AAAA". reflexivity.
Defined.

(** The adapter does not reject an image without a comma by itself: when the
    remote answers with an image, the promise is fulfilled. *)
Example image_without_comma_fulfilled :
  outcome (remote_resolving response_one_image) sample_env request_without_comma
  = Fulfilled "data:image/png;base64,BBBB".
Proof. reflexivity. Qed.

(** C10. Every rejection carries a message that is not empty.  A rejected run
    went through the [catch] block: after the call the cause was logged, and
    the error of the rejection is a fresh one whose message is the cause's,
    or the fallback when the cause has none or an empty one. *)
Theorem rejection_message_not_empty
        (remote : Remote) (env : ProcessEnv) (request : EditRequest)
        (e : Js.Error) :
  outcome remote env request = Rejected e ->
  exists m cause,
    Js.message e = Some m /\ m <> EmptyString
    /\ trace remote env request
       = [EvGenerateContent (new_GoogleGenAI env) (generateContent_params request);
          EvConsoleError "Gemini Edit Error:" cause]
    /\ (m = failed_to_process \/ Js.message cause = Some m).
Proof.
  assert (Hcaught : forall cause,
            exists m, Js.or_else (Js.message cause) failed_to_process = m
                      /\ m <> EmptyString
                      /\ (m = failed_to_process \/ Js.message cause = Some m)).
  { intros [[[|c s]|]]; simpl; eexists; repeat split;
      try discriminate; auto. }
  unfold outcome, trace. rewrite run_editImageWithGemini. unfold caught.
  destruct (remote _ _) as [response|error].
  - destruct (first_candidate_parts response) as [ps|].
    + destruct (for_of ps scan_part); [discriminate|].
      cbn [fst snd]. intros [= <-].
      destruct (Hcaught (Js.new_Error no_image_data_found)) as (m & <- & ? & ?).
      now eexists _, _.
    + cbn [fst snd]. intros [= <-].
      destruct (Hcaught (Js.new_Error no_image_generated)) as (m & <- & ? & ?).
      now eexists _, _.
  - cbn [fst snd]. intros [= <-].
    destruct (Hcaught error) as (m & <- & ? & ?).
    now eexists _, _.
Qed.

Lemma rejection_message_not_empty_witness :
  exists m cause,
    Some failed_to_process = Some m /\ m <> EmptyString
    /\ trace (remote_rejecting {| Js.message := Some "" |})
             sample_env sample_request
       = [EvGenerateContent (new_GoogleGenAI sample_env)
                            (generateContent_params sample_request);
          EvConsoleError "Gemini Edit Error:" cause]
    /\ (m = failed_to_process \/ Js.message cause = Some m).
Proof.
  apply (rejection_message_not_empty
           (remote_rejecting {| Js.message := Some "" |})
           sample_env sample_request (Js.new_Error failed_to_process)).
  reflexivity.
Defined.

(** ** Further properties of the adapter *)

(** A scan that returns a URL stopped at a part with inline data, after
    parts without any. *)
Lemma for_of_found (ps : list Part) (url : string) :
  for_of ps scan_part = Some url ->
  exists texts img rest blob,
    ps = texts ++ img :: rest
    /\ Forall (fun p => inlineData p = None) texts
    /\ inlineData img = Some blob
    /\ url = ("data:" ++ Js.interpolate (GenAI.mimeType blob) ++
              ";base64," ++ Js.interpolate (data blob))%string.
Proof.
  induction ps as [|p ps IH]; simpl; [discriminate|].
  unfold scan_part at 1. destruct (inlineData p) as [blob|] eqn:Hp.
  - intros [= <-]. exists [], p, ps, blob. repeat split; [constructor | exact Hp].
  - intros H. destruct (IH H) as (texts & img & rest & blob & -> & Ht & Hi & Hu).
    exists (p :: texts), img, rest, blob.
    repeat split; [constructor; assumption | assumption | assumption].
Qed.

(** X1. The promise is fulfilled only with the data URL of a part with inline
    data that the remote returned in its first candidate, the first such
    part; and a fulfilled run writes nothing to the console. *)
Theorem fulfilled_only_from_first_image
        (remote : Remote) (env : ProcessEnv) (request : EditRequest)
        (url : string) :
  outcome remote env request = Fulfilled url ->
  exists response texts img rest blob,
    remote (new_GoogleGenAI env) (generateContent_params request)
      = Resolves response
    /\ first_candidate_parts response = Some (texts ++ img :: rest)
    /\ Forall (fun p => inlineData p = None) texts
    /\ inlineData img = Some blob
    /\ url = ("data:" ++ Js.interpolate (GenAI.mimeType blob) ++
              ";base64," ++ Js.interpolate (data blob))%string
    /\ trace remote env request
       = [EvGenerateContent (new_GoogleGenAI env)
                            (generateContent_params request)].
Proof.
  unfold outcome, trace. rewrite run_editImageWithGemini. unfold caught.
  destruct (remote _ _) as [response|error]; [|discriminate].
  destruct (first_candidate_parts response) as [ps|] eqn:Hps; [|discriminate].
  destruct (for_of ps scan_part) as [u|] eqn:Hscan; [|discriminate].
  cbn [fst snd]. intros [= ->].
  destruct (for_of_found _ _ Hscan) as (texts & img & rest & blob & -> & ? & ? & ?).
  exists response, texts, img, rest, blob.
  repeat split; try assumption; reflexivity.
Qed.

Lemma fulfilled_only_from_first_image_witness :
  exists response texts img rest blob,
    remote_resolving response_text_then_images (new_GoogleGenAI sample_env)
                     (generateContent_params sample_request)
      = Resolves response
    /\ first_candidate_parts response = Some (texts ++ img :: rest)
    /\ Forall (fun p => inlineData p = None) texts
    /\ inlineData img = Some blob
    /\ "data:image/webp;base64,CCCC"
       = ("data:" ++ Js.interpolate (GenAI.mimeType blob) ++
          ";base64," ++ Js.interpolate (data blob))%string
    /\ trace (remote_resolving response_text_then_images) sample_env
             sample_request
       = [EvGenerateContent (new_GoogleGenAI sample_env)
                            (generateContent_params sample_request)].
Proof.
  apply (fulfilled_only_from_first_image
           (remote_resolving response_text_then_images) sample_env
           sample_request "data:image/webp;base64,CCCC").
  reflexivity.
Defined.

(** X2. A first part with inline data whose mime type or payload is not
    declared still fulfils the promise: the missing piece is spelled
    [undefined] in the URL. *)
Theorem undeclared_blob_fields_spelled_undefined
        (remote : Remote) (env : ProcessEnv) (request : EditRequest)
        (response : GenerateContentResponse)
        (texts rest : list Part) (img : Part) (blob : Blob) :
  remote (new_GoogleGenAI env) (generateContent_params request)
    = Resolves response ->
  first_candidate_parts response = Some (texts ++ img :: rest) ->
  Forall (fun p => inlineData p = None) texts ->
  inlineData img = Some blob ->
  outcome remote env request
  = Fulfilled
      (data_url
         match GenAI.mimeType blob with Some mime => mime | None => "undefined" end
         match data blob with Some payload => payload | None => "undefined" end).
Proof.
  intros Hremote Hps Htexts Himg. unfold outcome.
  rewrite run_editImageWithGemini, Hremote, Hps.
  rewrite (for_of_first_image _ _ _ Htexts).
  unfold scan_part. rewrite Himg. reflexivity.
Qed.

Lemma undeclared_blob_fields_spelled_undefined_witness :
  outcome
    (remote_resolving
       (response_with_parts
          [text_part "Done.";
           {| inlineData := Some {| data := None; GenAI.mimeType := None |};
              text := None |}]))
    sample_env sample_request
  = Fulfilled "data:undefined;base64,undefined".
Proof.
  apply (undeclared_blob_fields_spelled_undefined
           (remote_resolving
              (response_with_parts
                 [text_part "Done.";
                  {| inlineData := Some {| data := None; GenAI.mimeType := None |};
                     text := None |}]))
           sample_env sample_request
           (response_with_parts
              [text_part "Done.";
               {| inlineData := Some {| data := None; GenAI.mimeType := None |};
                  text := None |}])
           [text_part "Done."] []
           {| inlineData := Some {| data := None; GenAI.mimeType := None |};
              text := None |}
           {| data := None; GenAI.mimeType := None |});
    try reflexivity.
  repeat constructor.
Defined.

Lemma for_of_inlineData (ps1 ps2 : list Part) :
  map inlineData ps1 = map inlineData ps2 ->
  for_of ps1 scan_part = for_of ps2 scan_part.
Proof.
  revert ps2. induction ps1 as [|p ps1 IH]; intros [|q ps2]; simpl;
    try discriminate; [reflexivity|].
  intros [= Hpq Hrest]. unfold scan_part at 1 3. rewrite Hpq.
  destruct (inlineData q); [reflexivity | now apply IH].
Qed.

(** X3. The text of the parts is never read: two responses whose first
    candidates carry, part by part, the same inline data lead to the same
    settlement and the same events. *)
Theorem text_of_parts_not_read
        (remote1 remote2 : Remote) (env : ProcessEnv) (request : EditRequest)
        (response1 response2 : GenerateContentResponse)
        (ps1 ps2 : list Part) :
  remote1 (new_GoogleGenAI env) (generateContent_params request)
    = Resolves response1 ->
  remote2 (new_GoogleGenAI env) (generateContent_params request)
    = Resolves response2 ->
  first_candidate_parts response1 = Some ps1 ->
  first_candidate_parts response2 = Some ps2 ->
  map inlineData ps1 = map inlineData ps2 ->
  outcome remote1 env request = outcome remote2 env request
  /\ trace remote1 env request = trace remote2 env request.
Proof.
  intros H1 H2 Hp1 Hp2 Hsame. unfold outcome, trace.
  rewrite !run_editImageWithGemini, H1, H2, Hp1, Hp2.
  rewrite (for_of_inlineData _ _ Hsame). split; reflexivity.
Qed.

Lemma text_of_parts_not_read_witness :
  outcome (remote_resolving (response_with_parts [text_part "No."]))
          sample_env sample_request
  = outcome (remote_resolving
               (response_with_parts
                  [{| inlineData := None; text := None |}]))
            sample_env sample_request.
Proof.
  apply (text_of_parts_not_read
           (remote_resolving (response_with_parts [text_part "No."]))
           (remote_resolving
              (response_with_parts [{| inlineData := None; text := None |}]))
           sample_env sample_request
           (response_with_parts [text_part "No."])
           (response_with_parts [{| inlineData := None; text := None |}])
           [text_part "No."] [{| inlineData := None; text := None |}]);
    reflexivity.
Defined.

(** X4. The promise settles as the remote call does and as nothing else:
    for any two invocations, with whatever keys and requests, whose remote
    calls settle alike, the promises settle alike. *)
Theorem outcome_from_remote_alone
        (remote1 remote2 : Remote) (env1 env2 : ProcessEnv)
        (request1 request2 : EditRequest) :
  remote1 (new_GoogleGenAI env1) (generateContent_params request1)
  = remote2 (new_GoogleGenAI env2) (generateContent_params request2) ->
  outcome remote1 env1 request1 = outcome remote2 env2 request2.
Proof.
  intros Hsame. unfold outcome. rewrite !run_editImageWithGemini, Hsame.
  destruct (remote2 _ _) as [response|error]; [|reflexivity].
  destruct (first_candidate_parts response) as [ps|]; [|reflexivity].
  destruct (for_of ps scan_part); reflexivity.
Qed.

Lemma outcome_from_remote_alone_witness :
  outcome (remote_resolving response_one_image) sample_env sample_request
  = outcome (remote_resolving response_one_image) {| API_KEY := None |}
            request_without_comma.
Proof.
  apply (outcome_from_remote_alone
           (remote_resolving response_one_image)
           (remote_resolving response_one_image)
           sample_env {| API_KEY := None |}
           sample_request request_without_comma).
  reflexivity.
Defined.

(** X5. What stands before the first comma of the image is not read: two
    requests whose images differ only there, and that agree on mime type and
    instruction, run alike, event by event. *)
Theorem prefix_before_comma_not_read
        (remote : Remote) (env : ProcessEnv) (request1 request2 : EditRequest)
        (pre1 pre2 rest : string) :
  has_char "," pre1 = false -> has_char "," pre2 = false ->
  image request1 = (pre1 ++ String "," rest)%string ->
  image request2 = (pre2 ++ String "," rest)%string ->
  mimeType request1 = mimeType request2 ->
  instruction request1 = instruction request2 ->
  run remote (editImageWithGemini env request1)
  = run remote (editImageWithGemini env request2).
Proof.
  intros Hpre1 Hpre2 Himg1 Himg2 Hmime Hinstr.
  assert (Hparams : generateContent_params request1
                    = generateContent_params request2).
  { unfold generateContent_params, imagePart, textPart, enhancedPrompt.
    rewrite Himg1, Himg2, Hmime, Hinstr.
    now rewrite !split_at_first_sep by assumption. }
  rewrite !run_editImageWithGemini. unfold caught. now rewrite Hparams.
Qed.

Lemma prefix_before_comma_not_read_witness :
  run (remote_resolving response_one_image)
      (editImageWithGemini sample_env sample_request)
  = run (remote_resolving response_one_image)
        (editImageWithGemini sample_env
           {| image := "anything at all,AAAA"; mimeType := "image/png";
              instruction := "Remove background" |}).
Proof.
  apply (prefix_before_comma_not_read
           (remote_resolving response_one_image) sample_env sample_request
           {| image := "anything at all,AAAA"; mimeType := "image/png";
              instruction := "Remove background" |}
           "data:image/png;base64" "anything at all" "AAAA");
    reflexivity.
Defined.

(** No segment of a split contains the separator. *)
Lemma split_segments_free (sep : ascii) (s : string) :
  Forall (fun seg => has_char sep seg = false) (Js.split sep s).
Proof.
  induction s as [|c s IH]; simpl.
  - repeat constructor.
  - destruct (Ascii.eqb c sep) eqn:Hc.
    + constructor; [reflexivity | exact IH].
    + destruct (Js.split sep s) as [|seg segs].
      * repeat constructor. simpl. now rewrite Hc.
      * inversion IH as [|? ? Hseg Hsegs]; subst.
        constructor; [simpl; now rewrite Hc | exact Hsegs].
Qed.

(** X6. Whatever the image is, a payload that is sent contains no comma. *)
Theorem payload_sent_has_no_comma
        (remote : Remote) (env : ProcessEnv) (request : EditRequest)
        (payload : string) :
  In (Some payload) (sent_payloads (trace remote env request)) ->
  has_char "," payload = false.
Proof.
  rewrite sent_payloads_trace. intros [Hnth|[]].
  apply nth_error_In in Hnth.
  exact (proj1 (Forall_forall _ _) (split_segments_free "," (image request))
               _ Hnth).
Qed.

Lemma payload_sent_has_no_comma_witness : has_char "," "AA" = false.
Proof.
  apply (payload_sent_has_no_comma
           (remote_resolving response_one_image) sample_env
           request_with_second_comma "AA").
  left. reflexivity.
Defined.

Lemma append_cancel_l (a b c : string) :
  (a ++ b)%string = (a ++ c)%string -> b = c.
Proof. induction a as [|x a IH]; simpl; [auto | intros [= H]; auto]. Qed.

Lemma append_length (a b : string) :
  String.length (a ++ b) = String.length a + String.length b.
Proof. induction a as [|x a IH]; simpl; [reflexivity | now rewrite IH]. Qed.

Lemma append_cancel_r (a b c : string) :
  (a ++ c)%string = (b ++ c)%string -> a = b.
Proof.
  revert b. induction a as [|x a IH]; intros [|y b]; simpl; intros H.
  - reflexivity.
  - apply (f_equal String.length) in H. simpl in H.
    rewrite append_length in H. lia.
  - apply (f_equal String.length) in H. simpl in H.
    rewrite append_length in H. lia.
  - injection H as -> H. f_equal. now apply IH.
Qed.

(** X7. Different instructions give different texts: the enhanced prompt
    determines the instruction it was built from. *)
Theorem enhancedPrompt_injective (request1 request2 : EditRequest) :
  enhancedPrompt request1 = enhancedPrompt request2 ->
  instruction request1 = instruction request2.
Proof.
  rewrite !enhancedPrompt_template. intros H.
  apply append_cancel_l in H. now apply append_cancel_r in H.
Qed.

Lemma enhancedPrompt_injective_witness :
  instruction sample_request = instruction request_with_second_comma.
Proof.
  apply (enhancedPrompt_injective sample_request request_with_second_comma).
  reflexivity.
Defined.

(** ** The button *)

(** X8. A [disabled] prop that is passed decides alone whether the button is
    disabled: [isLoading] has no say then.  Without the prop, the button is
    disabled exactly while it is loading. *)
Theorem Button_disabled_prop_wins (props : Button.ButtonProps) :
  (forall d, Button.disabled props = Some d ->
             Button.is_disabled (Button.Button props) = d)
  /\ (Button.disabled props = None ->
      Button.is_disabled (Button.Button props)
      = Button.spinner (Button.Button props)).
Proof.
  unfold Button.is_disabled, Button.Button. cbn. split.
  - intros d ->. now destruct d.
  - intros ->. now destruct (Button.isLoading props) as [[|]|].
Qed.

Lemma Button_disabled_prop_wins_witness :
  Button.is_disabled
    (Button.Button {| Button.variant := Some Button.danger;
                      Button.isLoading := Some true;
                      Button.className := None;
                      Button.disabled := Some false |}) = false
  /\ Button.is_disabled
       (Button.Button {| Button.variant := None;
                         Button.isLoading := Some true;
                         Button.className := None;
                         Button.disabled := None |}) = true.
Proof.
  split.
  - apply (proj1 (Button_disabled_prop_wins
                    {| Button.variant := Some Button.danger;
                       Button.isLoading := Some true;
                       Button.className := None;
                       Button.disabled := Some false |})).
    reflexivity.
  - rewrite (proj2 (Button_disabled_prop_wins
                      {| Button.variant := None;
                         Button.isLoading := Some true;
                         Button.className := None;
                         Button.disabled := None |}) eq_refl).
    reflexivity.
Defined.

(** ** The shell, one handler at a time *)

(** X9. While an edit is being processed on a loaded image with a typed
    instruction, the "Refine Image" button shows its spinner and is not
    disabled, whereas the quick-action buttons are: the button is passed a
    [disabled] prop computed from the image and the prompt alone. *)
Theorem refine_button_enabled_while_processing (st : App.State) :
  App.status st = Types.PROCESSING ->
  truthy (Types.original (App.image st)) = true ->
  App.prompt st <> EmptyString ->
  Button.is_disabled (Button.Button (App.refine_button st)) = false
  /\ Button.spinner (Button.Button (App.refine_button st)) = true
  /\ App.quick_action_disabled st = true.
Proof.
  intros Hstatus Horiginal Hprompt.
  unfold Button.is_disabled, Button.Button, App.refine_button,
    App.quick_action_disabled.
  cbn. rewrite Hstatus, Horiginal. cbn.
  destruct (App.prompt st); [contradiction | auto].
Qed.

Lemma refine_button_enabled_while_processing_witness :
  Button.is_disabled
    (Button.Button (App.refine_button (App.processEdit_begin state_loaded)))
  = false.
Proof.
  apply (refine_button_enabled_while_processing
           (App.processEdit_begin state_loaded));
    [reflexivity | reflexivity | discriminate].
Defined.

(** X10. The canvas is never blank: in every state at least one of its four
    alternatives is rendered. *)
Theorem canvas_never_blank (st : App.State) :
  App.shows_placeholder st || App.shows_original st
  || App.shows_processing st || App.shows_comparison st = true.
Proof.
  unfold App.shows_placeholder, App.shows_original, App.shows_processing,
    App.shows_comparison.
  destruct (truthy (Types.original (App.image st)));
    destruct (truthy (Types.edited (App.image st)));
    destruct (Types.EditStatus_eqb (App.status st) Types.PROCESSING);
    reflexivity.
Qed.

Lemma processEdit_request_None (st : App.State) (customPrompt : option string) :
  App.processEdit_request st customPrompt = None
  <-> truthy (Types.original (App.image st)) = false
      \/ Js.or_else customPrompt (App.prompt st) = EmptyString
      \/ truthy (Types.mimeType (App.image st)) = false.
Proof.
  unfold App.processEdit_request.
  destruct (Types.original (App.image st)) as [[|c o]|];
    destruct (Types.mimeType (App.image st)) as [[|d m]|];
    destruct (Js.or_else customPrompt (App.prompt st)); cbn;
    intuition discriminate.
Qed.

(** X11. [processEdit] returns at once, changing nothing and calling
    nothing, when no image is loaded, or the instruction in force is empty,
    or the recorded mime type is missing or empty, as it is for a file whose
    type the browser does not know. *)
Theorem processEdit_returns_early
        (remote : Remote) (env : ProcessEnv) (st : App.State)
        (customPrompt : option string) :
  truthy (Types.original (App.image st)) = false
  \/ Js.or_else customPrompt (App.prompt st) = EmptyString
  \/ truthy (Types.mimeType (App.image st)) = false ->
  App.processEdit remote env st customPrompt = (st, []).
Proof.
  intros H. apply processEdit_request_None in H.
  unfold App.processEdit. now rewrite H.
Qed.

Lemma processEdit_returns_early_witness :
  App.processEdit (remote_resolving response_one_image) sample_env
                  state_untyped_file None
  = (state_untyped_file, []).
Proof.
  apply (processEdit_returns_early
           (remote_resolving response_one_image) sample_env
           state_untyped_file None).
  right. right. reflexivity.
Defined.

(** X12. The request [processEdit] makes carries the loaded image and its
    recorded mime type, and as instruction the custom prompt when one is
    given and not empty, the typed prompt otherwise; none of the three is
    empty. *)
Theorem processEdit_request_fields
        (st : App.State) (customPrompt : option string) (request : EditRequest) :
  App.processEdit_request st customPrompt = Some request ->
  Types.original (App.image st) = Some (image request)
  /\ Types.mimeType (App.image st) = Some (mimeType request)
  /\ instruction request
     = match customPrompt with
       | Some (String c s) => String c s
       | _ => App.prompt st
       end
  /\ request_nonempty request.
Proof.
  unfold App.processEdit_request, request_nonempty.
  destruct (Js.or_else customPrompt (App.prompt st)) as [|e p] eqn:Hp;
    destruct (Types.original (App.image st)) as [[|c o]|];
    destruct (Types.mimeType (App.image st)) as [[|d m]|];
    cbn; try discriminate.
  intros [= <-]. cbn. repeat split; try discriminate.
  rewrite <- Hp. now destruct customPrompt as [[|]|].
Qed.

Lemma processEdit_request_fields_witness :
  Types.original (App.image state_loaded) = Some "data:image/png;base64,AAAA"
  /\ Types.mimeType (App.image state_loaded) = Some "image/png"
  /\ "Add a shadow" = "Add a shadow"
  /\ request_nonempty
       {| image := "data:image/png;base64,AAAA"; mimeType := "image/png";
          instruction := "Add a shadow" |}.
Proof.
  apply (processEdit_request_fields
           state_loaded (Some "Add a shadow")
           {| image := "data:image/png;base64,AAAA"; mimeType := "image/png";
              instruction := "Add a shadow" |}).
  reflexivity.
Defined.

(** A rejection of the adapter has a message, and the message is not
    empty. *)
Lemma outcome_rejected_message
      (remote : Remote) (env : ProcessEnv) (request : EditRequest)
      (e : Js.Error) :
  outcome remote env request = Rejected e ->
  exists m, Js.message e = Some m /\ m <> EmptyString.
Proof.
  assert (Hor : forall v, Js.or_else v failed_to_process <> EmptyString)
    by (intros [[|c s]|]; discriminate).
  unfold outcome. rewrite run_editImageWithGemini. unfold caught.
  destruct (remote _ _) as [response|error].
  - destruct (first_candidate_parts response) as [ps|].
    + destruct (for_of ps scan_part); [discriminate|].
      intros [= <-]. eexists. split; [reflexivity | discriminate].
    + intros [= <-]. eexists. split; [reflexivity | discriminate].
  - intros [= <-]. eexists. split; [reflexivity | apply Hor].
Qed.

(** A URL the adapter resolves to is not empty. *)
Lemma outcome_fulfilled_truthy
      (remote : Remote) (env : ProcessEnv) (request : EditRequest)
      (url : string) :
  outcome remote env request = Fulfilled url -> truthy (Some url) = true.
Proof.
  unfold outcome. rewrite run_editImageWithGemini. unfold caught.
  destruct (remote _ _) as [response|error]; [|discriminate].
  destruct (first_candidate_parts response) as [ps|]; [|discriminate].
  destruct (for_of ps scan_part) as [u|] eqn:Hscan; [|discriminate].
  intros [= ->].
  destruct (for_of_found _ _ Hscan) as (texts & img & rest & blob & _ & _ & _ & ->).
  reflexivity.
Qed.

Lemma processEdit_settles
      (remote : Remote) (env : ProcessEnv) (st : App.State)
      (customPrompt : option string) (request : EditRequest) :
  App.processEdit_request st customPrompt = Some request ->
  App.processEdit remote env st customPrompt
  = (App.processEdit_end (outcome remote env request) (App.processEdit_begin st),
     trace remote env request).
Proof.
  intros Hreq. unfold App.processEdit, outcome, trace. rewrite Hreq.
  now destruct (run remote (editImageWithGemini env request)).
Qed.

(** X13. When [processEdit] goes ahead and the adapter resolves, the shell
    ends in [SUCCESS] with the URL as edited image and no error; the loaded
    image, the prompt and the zoom are as before, and the comparison is
    rendered. *)
Theorem processEdit_fulfilled
        (remote : Remote) (env : ProcessEnv) (st : App.State)
        (customPrompt : option string) (request : EditRequest) (url : string) :
  App.processEdit_request st customPrompt = Some request ->
  outcome remote env request = Fulfilled url ->
  fst (App.processEdit remote env st customPrompt)
  = {| App.image :=
         {| Types.original := Types.original (App.image st);
            Types.edited := Some url;
            Types.mimeType := Types.mimeType (App.image st) |};
       App.status := Types.SUCCESS;
       App.prompt := App.prompt st;
       App.error := None;
       App.zoomScale := App.zoomScale st |}
  /\ App.shows_comparison (fst (App.processEdit remote env st customPrompt))
     = true.
Proof.
  intros Hreq Hout. rewrite (processEdit_settles _ _ _ _ _ Hreq), Hout.
  split; [reflexivity|].
  unfold App.shows_comparison. cbn.
  exact (outcome_fulfilled_truthy _ _ _ _ Hout).
Qed.

Lemma processEdit_fulfilled_witness :
  App.shows_comparison
    (fst (App.processEdit (remote_resolving response_one_image) sample_env
                          state_loaded None)) = true.
Proof.
  apply (processEdit_fulfilled
           (remote_resolving response_one_image) sample_env state_loaded None
           {| image := "data:image/png;base64,AAAA"; mimeType := "image/png";
              instruction := "Make it brighter" |}
           "data:image/png;base64,BBBB");
    reflexivity.
Defined.

(** X14. When [processEdit] goes ahead and the adapter rejects, the shell
    ends in [ERROR] with a message that is not empty; the images, the edited
    one of an earlier success included, the prompt and the zoom are as
    before. *)
Theorem processEdit_rejected
        (remote : Remote) (env : ProcessEnv) (st : App.State)
        (customPrompt : option string) (request : EditRequest) (e : Js.Error) :
  App.processEdit_request st customPrompt = Some request ->
  outcome remote env request = Rejected e ->
  exists m,
    m <> EmptyString
    /\ fst (App.processEdit remote env st customPrompt)
       = {| App.image := App.image st;
            App.status := Types.ERROR;
            App.prompt := App.prompt st;
            App.error := Some m;
            App.zoomScale := App.zoomScale st |}.
Proof.
  intros Hreq Hout. rewrite (processEdit_settles _ _ _ _ _ Hreq), Hout.
  destruct (outcome_rejected_message _ _ _ _ Hout) as (m & Hm & Hne).
  exists m. split; [exact Hne|]. cbn. now rewrite Hm.
Qed.

Lemma processEdit_rejected_witness :
  exists m,
    m <> EmptyString
    /\ fst (App.processEdit (remote_rejecting {| Js.message := None |})
                            sample_env state_loaded None)
       = {| App.image := App.image state_loaded;
            App.status := Types.ERROR;
            App.prompt := App.prompt state_loaded;
            App.error := Some m;
            App.zoomScale := App.zoomScale state_loaded |}.
Proof.
  apply (processEdit_rejected
           (remote_rejecting {| Js.message := None |}) sample_env
           state_loaded None
           {| image := "data:image/png;base64,AAAA"; mimeType := "image/png";
              instruction := "Make it brighter" |}
           (Js.new_Error failed_to_process));
    reflexivity.
Defined.

(** X15. A quick action on a loaded image sends its own prompt as the
    instruction, whatever the text area holds, and writes that prompt into
    the text area. *)
Theorem quick_action_sends_its_prompt
        (env : ProcessEnv) (sh : App.Shell) (n : nat) (action : Action.t)
        (original mime : string) :
  nth_error App.QUICK_ACTIONS n = Some action ->
  Types.original (App.image (App.ui sh)) = Some original ->
  Types.mimeType (App.image (App.ui sh)) = Some mime ->
  original <> EmptyString -> mime <> EmptyString ->
  App.handle env (App.Quick n) sh
  = {| App.ui :=
         {| App.image := App.image (App.ui sh);
            App.status := Types.PROCESSING;
            App.prompt := Action.prompt action;
            App.error := None;
            App.zoomScale := App.zoomScale (App.ui sh) |};
       App.pending :=
         App.pending sh
         ++ [ {| image := original; mimeType := mime;
                 instruction := Action.prompt action |} ] |}.
Proof.
  intros Hn Ho Hm Hone Hmne. unfold App.handle. rewrite Hn.
  unfold App.processEdit_request. rewrite Ho, Hm.
  destruct original as [|c o]; [contradiction|].
  destruct mime as [|d m]; [contradiction|].
  do 5 (destruct n as [|n]; [injection Hn as <-; reflexivity|]).
  destruct n; discriminate.
Qed.

Lemma quick_action_sends_its_prompt_witness :
  App.pending
    (App.handle sample_env (App.Quick 2)
                {| App.ui := state_loaded; App.pending := [] |})
  = [ {| image := "data:image/png;base64,AAAA"; mimeType := "image/png";
         instruction := "Add a realistic soft contact shadow under the product." |} ].
Proof.
  rewrite (quick_action_sends_its_prompt
             sample_env {| App.ui := state_loaded; App.pending := [] |} 2
             {| Action.label := "Add Shadow";
                Action.prompt :=
                  "Add a realistic soft contact shadow under the product." |}
             "data:image/png;base64,AAAA" "image/png"
             eq_refl eq_refl eq_refl);
    [reflexivity | discriminate | discriminate].
Defined.

(** ** The shell over time *)

Lemma take_out_Forall {X : Type} (P : X -> Prop) (k : nat) (xs rest : list X)
      (x : X) :
  App.take_out k xs = Some (x, rest) -> Forall P xs -> P x /\ Forall P rest.
Proof.
  revert k rest. induction xs as [|y xs IH]; intros k rest;
    [destruct k; discriminate|].
  destruct k as [|k]; simpl.
  - intros [= <- <-] H. inversion H; subst. now split.
  - destruct (App.take_out k xs) as [[z rest']|] eqn:E; [|discriminate].
    intros [= <- <-] H. inversion H as [|? ? Hy Hxs]; subst.
    destruct (IH _ _ E Hxs) as [Hz Hrest]. split; [exact Hz|].
    now constructor.
Qed.

Lemma processEdit_request_nonempty
      (st : App.State) (customPrompt : option string) (request : EditRequest) :
  App.processEdit_request st customPrompt = Some request ->
  request_nonempty request.
Proof.
  unfold App.processEdit_request, request_nonempty.
  destruct (Js.or_else customPrompt (App.prompt st)) as [|e p];
    destruct (Types.original (App.image st)) as [[|c o]|];
    destruct (Types.mimeType (App.image st)) as [[|d m]|];
    cbn; try discriminate.
  intros [= <-]. cbn. repeat split; discriminate.
Qed.

Lemma begin_invariant (sh : App.Shell) (st : App.State) (request : EditRequest) :
  shell_invariant sh ->
  App.image st = App.image (App.ui sh) ->
  request_nonempty request ->
  shell_invariant {| App.ui := App.processEdit_begin st;
                     App.pending := App.pending sh ++ [request] |}.
Proof.
  intros [Hom _ _ _ _ Hpend] Himage Hreq.
  constructor; cbn; try discriminate.
  - now rewrite Himage.
  - intros _ H. now apply app_eq_nil in H as [_ H].
  - apply Forall_app. split; [exact Hpend | now constructor].
Qed.

(** Every handler keeps the invariant. *)
Lemma handle_invariant (env : ProcessEnv) (ev : App.ShellEvent) (sh : App.Shell) :
  shell_invariant sh -> shell_invariant (App.handle env ev sh).
Proof.
  intros Hinv. destruct ev as [result file|value| |n|k remote| |z]; cbn.
  - destruct Hinv. constructor; cbn; try discriminate; try assumption.
    split; discriminate.
  - destruct Hinv. constructor; cbn; assumption.
  - destruct (App.processEdit_request (App.ui sh) None) as [request|] eqn:E;
      [|exact Hinv].
    apply begin_invariant; [exact Hinv | reflexivity |].
    exact (processEdit_request_nonempty _ _ _ E).
  - destruct (nth_error App.QUICK_ACTIONS n) as [action|]; [|exact Hinv].
    destruct (App.processEdit_request (App.ui sh) (Some (Action.prompt action)))
      as [request|] eqn:E.
    + apply begin_invariant; [exact Hinv | reflexivity |].
      exact (processEdit_request_nonempty _ _ _ E).
    + destruct Hinv. constructor; cbn; assumption.
  - destruct (App.take_out k (App.pending sh)) as [[request rest]|] eqn:E;
      [|exact Hinv].
    destruct Hinv as [Hom Hup Herr Hsucc Hproc Hpend].
    destruct (take_out_Forall _ _ _ _ _ E Hpend) as [_ Hrest].
    destruct (outcome remote env request) as [url|e] eqn:Hout;
      constructor; cbn; try discriminate; try assumption.
    + intros _. exact (outcome_fulfilled_truthy _ _ _ _ Hout).
    + intros _. exact (outcome_rejected_message _ _ _ _ Hout).
  - destruct Hinv. constructor; cbn; try discriminate; try assumption.
    tauto.
  - destruct Hinv. constructor; cbn; assumption.
Qed.

Lemma start_invariant : shell_invariant App.start.
Proof.
  constructor; cbn; try discriminate; [tauto | constructor].
Qed.

(** The invariant holds after every sequence of events. *)
Lemma after_invariant (env : ProcessEnv) (events : list App.ShellEvent) :
  shell_invariant (App.after env events).
Proof.
  unfold App.after. generalize start_invariant. generalize App.start.
  induction events as [|ev events IH]; intros sh Hinv; simpl; [exact Hinv|].
  apply IH. now apply handle_invariant.
Qed.

(** X16. Whatever happens, the status is never [UPLOADING]. *)
Theorem status_never_UPLOADING (env : ProcessEnv) (events : list App.ShellEvent) :
  App.status (App.ui (App.after env events)) <> Types.UPLOADING.
Proof. apply not_UPLOADING, after_invariant. Qed.

(** X17. Whatever happens, a shell in status [ERROR] has an error message to
    show, and the message is not empty. *)
Theorem ERROR_status_has_message
        (env : ProcessEnv) (events : list App.ShellEvent) :
  App.status (App.ui (App.after env events)) = Types.ERROR ->
  exists m, App.error (App.ui (App.after env events)) = Some m
            /\ m <> EmptyString.
Proof. apply ERROR_with_message, after_invariant. Qed.

Lemma ERROR_status_has_message_witness :
  exists m,
    App.error
      (App.ui (App.after sample_env
                 (events_refining
                  ++ [App.Settle 0 (remote_resolving response_text_only)])))
    = Some m
    /\ m <> EmptyString.
Proof.
  apply (ERROR_status_has_message
           sample_env
           (events_refining
            ++ [App.Settle 0 (remote_resolving response_text_only)])).
  reflexivity.
Defined.

(** X18. Whatever happens, a shell in status [SUCCESS] has an edited image to
    show. *)
Theorem SUCCESS_status_has_edited_image
        (env : ProcessEnv) (events : list App.ShellEvent) :
  App.status (App.ui (App.after env events)) = Types.SUCCESS ->
  truthy (Types.edited (App.image (App.ui (App.after env events)))) = true.
Proof. apply SUCCESS_with_edited, after_invariant. Qed.

Lemma SUCCESS_status_has_edited_image_witness :
  truthy
    (Types.edited
       (App.image
          (App.ui (App.after sample_env
                     (events_refining
                      ++ [App.Settle 0 (remote_resolving response_one_image)])))))
  = true.
Proof.
  apply (SUCCESS_status_has_edited_image
           sample_env
           (events_refining
            ++ [App.Settle 0 (remote_resolving response_one_image)])).
  reflexivity.
Defined.

(** X19. Whatever happens, the status is [PROCESSING] only while a call of
    the adapter is waiting to settle. *)
Theorem PROCESSING_status_has_pending_call
        (env : ProcessEnv) (events : list App.ShellEvent) :
  App.status (App.ui (App.after env events)) = Types.PROCESSING ->
  App.pending (App.after env events) <> [].
Proof. apply PROCESSING_with_pending, after_invariant. Qed.

Lemma PROCESSING_status_has_pending_call_witness :
  App.pending (App.after sample_env events_refining) <> [].
Proof.
  apply (PROCESSING_status_has_pending_call sample_env events_refining).
  reflexivity.
Defined.

(** X20. Whatever happens, every request handed to the adapter has an image,
    a mime type and an instruction that are not empty. *)
Theorem pending_requests_nonempty
        (env : ProcessEnv) (events : list App.ShellEvent) :
  Forall request_nonempty (App.pending (App.after env events)).
Proof. apply pending_nonempty, after_invariant. Qed.

(** X21. Whatever happens, an image and a mime type are recorded together or
    not at all. *)
Theorem original_and_mimeType_together
        (env : ProcessEnv) (events : list App.ShellEvent) :
  Types.original (App.image (App.ui (App.after env events))) = None
  <-> Types.mimeType (App.image (App.ui (App.after env events))) = None.
Proof. apply original_with_mimeType, after_invariant. Qed.

(** X22. A result that arrives after "Start Over" is still put on display:
    if the shell is reset while a call is pending and the call then
    resolves, the shell is in [SUCCESS] with the edited image set and no
    original image. *)
Theorem late_result_after_reset
        (env : ProcessEnv) (sh : App.Shell) (k : nat) (remote : Remote)
        (request : EditRequest) (rest : list EditRequest) (url : string) :
  App.take_out k (App.pending sh) = Some (request, rest) ->
  outcome remote env request = Fulfilled url ->
  App.ui (App.handle env (App.Settle k remote) (App.handle env App.Reset sh))
  = {| App.image := {| Types.original := None; Types.edited := Some url;
                       Types.mimeType := None |};
       App.status := Types.SUCCESS;
       App.prompt := "";
       App.error := None;
       App.zoomScale := 1%float |}.
Proof.
  intros Htake Hout. cbn. rewrite Htake, Hout. reflexivity.
Qed.

Lemma late_result_after_reset_witness :
  App.ui (App.after sample_env
            (events_refining_again
             ++ [App.Reset;
                 App.Settle 0 (remote_resolving response_text_then_images)]))
  = {| App.image := {| Types.original := None;
                       Types.edited := Some "data:image/webp;base64,CCCC";
                       Types.mimeType := None |};
       App.status := Types.SUCCESS;
       App.prompt := "";
       App.error := None;
       App.zoomScale := 1%float |}.
Proof.
  apply (late_result_after_reset
           sample_env (App.after sample_env events_refining_again) 0
           (remote_resolving response_text_then_images)
           {| image := "data:image/png;base64,AAAA"; mimeType := "image/png";
              instruction := "Make it brighter" |}
           [] "data:image/webp;base64,CCCC");
    reflexivity.
Defined.

(** X23. A result that arrives after another file has been loaded is shown
    beside that file: if a file is read while a call is pending and the call
    then resolves, the shell is in [SUCCESS] with the new file as original
    and the result for the old one as edited image. *)
Theorem late_result_after_new_file
        (env : ProcessEnv) (sh : App.Shell) (k : nat) (remote : Remote)
        (request : EditRequest) (rest : list EditRequest) (url : string)
        (result : string) (file : App.File) :
  App.take_out k (App.pending sh) = Some (request, rest) ->
  outcome remote env request = Fulfilled url ->
  App.ui (App.handle env (App.Settle k remote)
            (App.handle env (App.Onload result file) sh))
  = {| App.image := {| Types.original := Some result;
                       Types.edited := Some url;
                       Types.mimeType := Some (App.type file) |};
       App.status := Types.SUCCESS;
       App.prompt := App.prompt (App.ui sh);
       App.error := None;
       App.zoomScale := 1%float |}.
Proof.
  intros Htake Hout. cbn. rewrite Htake, Hout. reflexivity.
Qed.

Lemma late_result_after_new_file_witness :
  Types.original
    (App.image
       (App.ui (App.after sample_env
                  (events_refining
                   ++ [App.Onload "data:image/jpeg;base64,ZZZZ"
                                  {| App.type := "image/jpeg" |};
                       App.Settle 0 (remote_resolving response_one_image)]))))
  = Some "data:image/jpeg;base64,ZZZZ"
  /\ Types.edited
       (App.image
          (App.ui (App.after sample_env
                     (events_refining
                      ++ [App.Onload "data:image/jpeg;base64,ZZZZ"
                                     {| App.type := "image/jpeg" |};
                          App.Settle 0 (remote_resolving response_one_image)]))))
     = Some "data:image/png;base64,BBBB".
Proof.
  assert (H := late_result_after_new_file
                 sample_env (App.after sample_env events_refining) 0
                 (remote_resolving response_one_image)
                 {| image := "data:image/png;base64,AAAA";
                    mimeType := "image/png";
                    instruction := "Make it brighter" |}
                 [] "data:image/png;base64,BBBB"
                 "data:image/jpeg;base64,ZZZZ" {| App.type := "image/jpeg" |}
                 eq_refl eq_refl).
  split.
  - exact (f_equal (fun st => Types.original (App.image st)) H).
  - exact (f_equal (fun st => Types.edited (App.image st)) H).
Defined.
